(** * AMAZE.PY: a moderation bot, its handlers and its allow-list

    The program is a set of entry points that the chat client library calls:
    four event handlers ([on_message], [on_guild_channel_create],
    [on_guild_role_create], [on_member_ban]), two owner-only commands
    ([whitelist], [unwhitelist]) and the command error handler
    ([on_command_error]).  They share one module-level set, [whitelisted].

    Every handler is embedded as a computation in a small state-and-exception
    monad: the state holds [whitelisted] and the journal of the library calls
    issued so far, each with the exception it raised, if any.  The library
    itself (which call fails, and how; [str.lower]; [bot.is_owner]) is a
    parameter, and so are the two identifiers read from the environment.

    Left out: the reading of the environment ([get_env_var]), [on_ready],
    the start of the bot, what is printed on the console, the colour and the
    timestamp of the log embed, and [ban_count], which nothing reads. *)

From Stdlib Require Import ZArith NArith List String Ascii Bool Lia DecimalString.
From stdpp Require Import base decidable list gmap strings.
Import ListNotations.

Local Open Scope Z_scope.

(** ** Text

    A Python [str] is a sequence of code points. *)

Abbreviation codepoint := N (only parsing).
Abbreviation str := (list N) (only parsing).

(** An ASCII literal of the source, as code points. *)
Definition lit (s : string) : str :=
  map N_of_ascii (list_ascii_of_string s).

(** What [\s] of the [re] module accepts in a [str] pattern (so [\S] is its
    complement): the code points for which [str.isspace] holds. *)
Definition isspace (c : codepoint) : bool :=
  ((9 <=? c) && (c <=? 13) || (28 <=? c) && (c <=? 32)
   || (c =? 133) || (c =? 160) || (c =? 5760)
   || (8192 <=? c) && (c <=? 8202)
   || (c =? 8232) || (c =? 8233) || (c =? 8239) || (c =? 8287)
   || (c =? 12288))%N.

(** [t in s] on strings: [t] occurs in [s] as a contiguous slice. *)
Fixpoint startswith (t s : str) : bool :=
  match t, s with
  | [], _ => true
  | _ :: _, [] => false
  | a :: t', b :: s' => (a =? b)%N && startswith t' s'
  end.

Fixpoint str_in (t s : str) : bool :=
  startswith t s ||
  match s with
  | [] => false
  | _ :: s' => str_in t s'
  end.

(** [str(n)] for an integer. *)
Definition str_of_int (n : Z) : str :=
  lit (NilZero.string_of_int (Z.to_int n)).

(** ** Regular expressions

    The fragment of [re] syntax that [LINK_PATTERN] is written in.  Only the
    truth value of [search] is used by the program, so the language of the
    pattern is all that matters. *)

Inductive regex : Type :=
| Void                        (* matches nothing; arises in derivatives *)
| Eps                         (* the empty pattern *)
| Chr (c : codepoint)         (* a literal character *)
| NonSpace                    (* \S *)
| Cat (r1 r2 : regex)         (* r1r2 *)
| Alt (r1 r2 : regex)         (* r1|r2 *)
| Star (r : regex).           (* r* *)

Definition Opt (r : regex) : regex := Alt r Eps.        (* r? *)
Definition Plus (r : regex) : regex := Cat r (Star r).  (* r+ *)

Fixpoint Lit (s : str) : regex :=
  match s with
  | [] => Eps
  | c :: s' => Cat (Chr c) (Lit s')
  end.

(** The words a pattern matches in full. *)
Inductive matches : regex -> str -> Prop :=
| matches_eps : matches Eps []
| matches_chr c : matches (Chr c) [c]
| matches_nonspace c : isspace c = false -> matches NonSpace [c]
| matches_cat r1 r2 u v :
    matches r1 u -> matches r2 v -> matches (Cat r1 r2) (u ++ v)
| matches_alt_l r1 r2 u : matches r1 u -> matches (Alt r1 r2) u
| matches_alt_r r1 r2 u : matches r2 u -> matches (Alt r1 r2) u
| matches_star_nil r : matches (Star r) []
| matches_star_app r u v :
    matches r u -> matches (Star r) v -> matches (Star r) (u ++ v).

Fixpoint nullable (r : regex) : bool :=
  match r with
  | Void | Chr _ | NonSpace => false
  | Eps | Star _ => true
  | Cat r1 r2 => nullable r1 && nullable r2
  | Alt r1 r2 => nullable r1 || nullable r2
  end.

(** What is left of [r] once it has read [c]. *)
Fixpoint deriv (c : codepoint) (r : regex) : regex :=
  match r with
  | Void | Eps => Void
  | Chr d => if (c =? d)%N then Eps else Void
  | NonSpace => if isspace c then Void else Eps
  | Cat r1 r2 =>
      if nullable r1
      then Alt (Cat (deriv c r1) r2) (deriv c r2)
      else Cat (deriv c r1) r2
  | Alt r1 r2 => Alt (deriv c r1) (deriv c r2)
  | Star r1 => Cat (deriv c r1) (Star r1)
  end.

(** [pattern.match(s)]: some prefix of [s] matches. *)
Fixpoint re_match (r : regex) (s : str) : bool :=
  nullable r ||
  match s with
  | [] => false
  | c :: s' => re_match (deriv c r) s'
  end.

(** [pattern.search(s)], as a truth value: a match starts somewhere in [s]. *)
Fixpoint search (r : regex) (s : str) : bool :=
  re_match r s ||
  match s with
  | [] => false
  | _ :: s' => search r s'
  end.

(** [LINK_PATTERN = re.compile(r"(https?://\S+|www\.\S+)")] *)
Definition LINK_PATTERN : regex :=
  Alt (Cat (Lit (lit "http"))
         (Cat (Opt (Chr 115)) (Cat (Lit (lit "://")) (Plus NonSpace))))
      (Cat (Lit (lit "www")) (Cat (Chr 46) (Plus NonSpace))).

(** ** The objects the library hands to the handlers

    Only the attributes the program reads are kept.  A message is one posted
    in a guild channel, and an audit-log entry names its user. *)

Record User : Type := {
  user_id : Z;
  user_mention : str;
  user_bot : bool }.

Inductive AuditLogAction : Type :=
| channel_create
| role_create
| ban
| other_action (code : Z).

Record AuditLogEntry : Type := {
  entry_action : AuditLogAction;
  entry_user : User }.

(** A guild: the ids of its channels and its audit log, newest entry first. *)
Record Guild : Type := {
  guild_id : Z;
  guild_channels : list Z;
  guild_audit_log : list AuditLogEntry }.

Record Channel : Type := {
  channel_id : Z;
  channel_name : str;
  channel_mention : str;
  channel_guild : Guild }.

Record Role : Type := {
  role_id : Z;
  role_name : str;
  role_guild : Guild }.

Record Message : Type := {
  message_id : Z;
  message_author : User;
  message_content : str;
  message_channel : Channel;
  message_guild : Guild }.

Record Context : Type := {
  ctx_author : User;
  ctx_guild : Guild;
  ctx_channel : Z;
  ctx_command : str }.

(** [guild.get_channel(id)]: the channel of that id, or [None]. *)
Definition get_channel (guild : Guild) (id : Z) : option Z :=
  if bool_decide (id ∈ guild_channels guild) then Some id else None.

Definition action_eqb (a b : AuditLogAction) : bool :=
  match a, b with
  | channel_create, channel_create | role_create, role_create | ban, ban => true
  | other_action x, other_action y => x =? y
  | _, _ => false
  end.

(** [guild.audit_logs(action=a, limit=n)]: the [n] newest entries of that
    action.  The query itself is taken to go through. *)
Definition audit_logs (guild : Guild) (a : AuditLogAction) (limit : nat)
  : list AuditLogEntry :=
  take limit (filter (fun e => action_eqb (entry_action e) a = true) (guild_audit_log guild)).

(** ** Library calls, exceptions and the journal *)

Inductive CommandError : Type :=
| CommandNotFound
| MissingRequiredArgument
| NotOwner
| OtherCommandError (text : str).     (* any other error, with its [str()] *)

Inductive Exn : Type :=
| Forbidden                           (* discord.Forbidden *)
| NotFound                            (* discord.NotFound *)
| HTTPException                       (* any other discord.HTTPException *)
| CommandErr (e : CommandError).

(** The calls into the library that have an effect on the platform.
    [GuildUnban] is the platform's primitive for lifting a ban; the program
    never issues it. *)
Inductive Call : Type :=
| MessageDelete (message : Z)                          (* message.delete() *)
| UserSend (user : Z) (text : str)                     (* user.send(text) *)
| ChannelSend (channel : Z) (text : str)               (* ctx.send(text) *)
| ChannelSendEmbed (channel : Z) (description : str)   (* channel.send(embed=..) *)
| MemberTimeout (user : Z) (seconds : Z) (reason : str)
| ChannelDelete (channel : Z)                          (* channel.delete() *)
| RoleDelete (role : Z)                                (* role.delete() *)
| MemberBan (user : Z) (reason : str)                  (* member.ban(reason=..) *)
| GuildBan (guild : Z) (user : Z) (reason : str)       (* guild.ban(user, reason=..) *)
| GuildUnban (guild : Z) (user : Z)
| ProcessCommands (message : Z).                       (* bot.process_commands(message) *)

(** The state of a run: the module-level set [whitelisted], and the journal
    of the calls issued so far, each with the exception it raised, if any. *)
Record World : Type := {
  whitelisted : gset Z;
  journal : list (Call * option Exn) }.

Inductive Result (A : Type) : Type :=
| Ok (a : A)
| Raise (e : Exn).
Arguments Ok {A} a.
Arguments Raise {A} e.

(** ** The monad of handler bodies *)

Definition M (A : Type) : Type := World -> Result A * World.

#[export] Instance M_ret : MRet M := fun A a w => (Ok a, w).

#[export] Instance M_bind : MBind M := fun A B k m w =>
  match m w with
  | (Ok a, w') => k a w'
  | (Raise e, w') => (Raise e, w')
  end.

Definition raise {A : Type} (e : Exn) : M A := fun w => (Raise e, w).

(** [try: body except <caught>: pass] *)
Definition try_except (body : M unit) (caught : Exn -> bool) : M unit := fun w =>
  match body w with
  | (Raise e, w') => if caught e then (Ok tt, w') else (Raise e, w')
  | r => r
  end.

Definition get_whitelisted : M (gset Z) := fun w => (Ok (whitelisted w), w).

Definition set_whitelisted (s : gset Z) : M unit := fun w =>
  (Ok tt, {| whitelisted := s; journal := journal w |}).

(** [for x in xs: body(x)] *)
Fixpoint for_each {A : Type} (xs : list A) (body : A -> M unit) : M unit :=
  match xs with
  | [] => mret tt
  | x :: xs' => body x ;; for_each xs' body
  end.

(** The world after more calls were journalled. *)
Definition extend (w : World) (es : list (Call * option Exn)) : World :=
  {| whitelisted := whitelisted w; journal := journal w ++ es |}.

Definition is_Forbidden (e : Exn) : bool :=
  match e with Forbidden => true | _ => false end.

(** The principal a journal entry banned, if it is a ban that went through. *)
Definition banned_by (e : Call * option Exn) : option Z :=
  match e with
  | (MemberBan user _, None) | (GuildBan _ user _, None) => Some user
  | _ => None
  end.

Definition banned_principals (es : list (Call * option Exn)) : list Z :=
  omap banned_by es.

(** The platform's set of banned principals after the entries [es]: bans
    that went through add to it, unbans that went through take from it. *)
Definition banned_after (es : list (Call * option Exn)) (banned : gset Z) : gset Z :=
  fold_left (fun s e =>
    match e with
    | (MemberBan user _, None) | (GuildBan _ user _, None) => {[ user ]} ∪ s
    | (GuildUnban _ user, None) => s ∖ {[ user ]}
    | _ => s
    end) es banned.

(** ** Sample platforms and objects *)

(** Every call goes through. *)
Definition obliging : list (Call * option Exn) -> Call -> option Exn :=
  fun _ _ => None.

(** Deleting a message a second time raises [NotFound]; all else goes through. *)
Definition strict : list (Call * option Exn) -> Call -> option Exn :=
  fun j c =>
    match c with
    | MessageDelete m =>
        if existsb (fun e => match e with
                             | (MessageDelete m', None) => m =? m'
                             | _ => false
                             end) j
        then Some NotFound else None
    | _ => None
    end.

(** Every direct message is refused; all else goes through. *)
Definition dm_closed : list (Call * option Exn) -> Call -> option Exn :=
  fun _ c => match c with UserSend _ _ => Some Forbidden | _ => None end.

(** The bot lacks the permission to delete messages. *)
Definition no_manage_messages : list (Call * option Exn) -> Call -> option Exn :=
  fun _ c => match c with MessageDelete _ => Some Forbidden | _ => None end.

(** ASCII lower-casing, which [str.lower] agrees with on ASCII text. *)
Definition ascii_lower (s : str) : str :=
  map (fun c => if ((65 <=? c) && (c <=? 90))%N then (c + 32)%N else c) s.

Module Sample.

Definition owner : User :=
  {| user_id := 1; user_mention := lit "<@1>"; user_bot := false |}.

Definition alice : User :=
  {| user_id := 2; user_mention := lit "<@2>"; user_bot := false |}.

Definition bob : User :=
  {| user_id := 3; user_mention := lit "<@3>"; user_bot := false |}.

(** The account the program itself is logged in as. *)
Definition self : User :=
  {| user_id := 50; user_mention := lit "<@50>"; user_bot := true |}.

(** Some other automated account. *)
Definition feed : User :=
  {| user_id := 99; user_mention := lit "<@99>"; user_bot := true |}.

(** A guild whose channel 7 is the log channel; alice created a channel
    and a role and banned bob. *)
Definition guild : Guild :=
  {| guild_id := 100;
     guild_channels := [7; 8];
     guild_audit_log :=
       [ {| entry_action := ban; entry_user := alice |};
         {| entry_action := role_create; entry_user := alice |};
         {| entry_action := channel_create; entry_user := alice |} ] |}.

(** The same guild before anything was written to its audit log. *)
Definition quiet_guild : Guild :=
  {| guild_id := 100; guild_channels := [7; 8]; guild_audit_log := [] |}.

Definition general : Channel :=
  {| channel_id := 8; channel_name := lit "general";
     channel_mention := lit "<#8>"; channel_guild := guild |}.

Definition raid : Channel :=
  {| channel_id := 9; channel_name := lit "raid";
     channel_mention := lit "<#9>"; channel_guild := guild |}.

(** Another guild, without the log channel, where alice created a channel. *)
Definition other_guild : Guild :=
  {| guild_id := 200;
     guild_channels := [21];
     guild_audit_log := [ {| entry_action := channel_create; entry_user := alice |} ] |}.

Definition lobby : Channel :=
  {| channel_id := 21; channel_name := lit "lobby";
     channel_mention := lit "<#21>"; channel_guild := other_guild |}.

(** A role created in the guild whose audit log has not caught up. *)
Definition raiders : Role :=
  {| role_id := 12; role_name := lit "raiders"; role_guild := quiet_guild |}.

Definition say (id : Z) (author : User) (text : string) : Message :=
  {| message_id := id; message_author := author; message_content := lit text;
     message_channel := general; message_guild := guild |}.

Definition ctx (author : User) (command : string) : Context :=
  {| ctx_author := author; ctx_guild := guild; ctx_channel := 8;
     ctx_command := lit command |}.

Definition only_owner (u : User) : bool := user_id u =? 1.

Definition fresh : World := {| whitelisted := {[ 1 ]}; journal := [] |}.

Definition advert : Message := say 55 alice "check this out www.example.com".
Definition shout : Message := say 56 alice "Hello @Everyone".
Definition both : Message := say 57 alice "@here see https://a.example now".
Definition syndicated : Message := say 58 feed "news at http://a.example".
Definition greeting : Message := say 59 alice "good morning".
Definition vip_advert : Message := say 60 owner "@everyone www.example.com".

(** A stand-in for [int]: it reads plain ASCII decimal digits as [int] does
    and rejects everything else. *)
Definition digits (s : list N) : option Z :=
  match s with
  | [] => None
  | _ =>
      fold_left (fun acc c =>
        match acc with
        | Some n =>
            if ((48 <=? c) && (c <=? 57))%N then Some (10 * n + Z.of_N (c - 48))
            else None
        | None => None
        end) s (Some 0)
  end.

(** A complete environment, and one where the owner was forgotten. *)
Definition environ : gmap string (list N) :=
  {[ "DISCORD_TOKEN"%string := lit "s3cret.token";
     "OWNER_ID"%string := lit "1";
     "LOG_CHANNEL_ID"%string := lit "7" ]}.

Definition no_owner : gmap string (list N) :=
  {[ "DISCORD_TOKEN"%string := lit "s3cret.token";
     "OWNER_ID"%string := [];
     "LOG_CHANNEL_ID"%string := lit "7" ]}.

End Sample.

(** ** Start-up: the configuration read from the environment *)

Module Startup.

(** The two ways [get_env_var] fails. *)
Inductive StartupError : Type :=
| NotSet (name : string)      (* ValueError(f"{name} is not set in .env!") *)
| InvalidInt (value : str).   (* the ValueError [int(value)] raises *)

(** What [get_env_var] returns: [int(value)] or [value] itself. *)
Inductive EnvValue : Type :=
| IntValue (n : Z)
| StrValue (s : str).

(** [TOKEN], [OWNER_ID] and [LOG_CHANNEL_ID] of the module. *)
Record Config : Type := {
  TOKEN : EnvValue;
  OWNER_ID : EnvValue;
  LOG_CHANNEL_ID : EnvValue }.

Section Environment.

(** The process environment once [load_dotenv()] has run, and [int] on
    strings ([None] where it raises [ValueError]). *)
Variable environ : gmap string (list N).
Variable int : str -> option Z.

(** [get_env_var(name, is_int=True)], lines 14-18.  [not value] holds of
    [None] and of the empty string. *)
Definition get_env_var (name : string) (is_int : bool) : StartupError + EnvValue :=
  match environ !! name with
  | None => inl (NotSet name)
  | Some [] => inl (NotSet name)
  | Some value =>
      if is_int then
        match int value with
        | Some n => inr (IntValue n)
        | None => inl (InvalidInt value)
        end
      else inr (StrValue value)
  end.

(** Lines 20-22: the three assignments, in their order. *)
Definition configuration : StartupError + Config :=
  match get_env_var "DISCORD_TOKEN" false with
  | inl e => inl e
  | inr token =>
      match get_env_var "OWNER_ID" true with
      | inl e => inl e
      | inr owner_id =>
          match get_env_var "LOG_CHANNEL_ID" true with
          | inl e => inl e
          | inr log_channel_id =>
              inr {| TOKEN := token; OWNER_ID := owner_id;
                     LOG_CHANNEL_ID := log_channel_id |}
          end
      end
  end.

End Environment.

End Startup.

(** ** The program *)

Section Bot.

Set Default Proof Using "Type".

(** The library behind the handlers: which calls raise ([platform]),
    [str.lower], and [bot.is_owner] (the check behind
    [@commands.is_owner()]). *)
Variable platform : list (Call * option Exn) -> Call -> option Exn.
Variable lower : str -> str.
Variable is_owner : User -> bool.

(** The configuration read from the environment at start-up. *)
Variable OWNER_ID : Z.
Variable LOG_CHANNEL_ID : Z.

(** Issue a library call: it is journalled with its outcome, and raises if
    the platform says so. *)
Definition call (c : Call) : M unit := fun w =>
  let o := platform (journal w) c in
  (match o with None => Ok tt | Some e => Raise e end, extend w [(c, o)]).

(** [whitelisted = {OWNER_ID}] *)
Definition initial_whitelisted : gset Z := {[ OWNER_ID ]}.

Definition TIMEOUT_DURATION : Z := 600.

Definition initial_world : World :=
  {| whitelisted := initial_whitelisted; journal := [] |}.

(** The text [send_dm] sends for [message]. *)
Definition alert (message : str) : str :=
  [128276%N] ++ lit " **Server Security Alert** " ++ [128276%N; 10%N] ++ message.

(** [send_dm(user, message)]; the console line of the [except] branch is not
    modelled. *)
Definition send_dm (user : User) (message : str) : M unit :=
  try_except (call (UserSend (user_id user) (alert message))) is_Forbidden.

(** [log_action(guild, message)]; the embed's colour and timestamp are not
    modelled. *)
Definition log_action (guild : Guild) (message : str) : M unit :=
  match get_channel guild LOG_CHANNEL_ID with
  | Some log_channel => call (ChannelSendEmbed log_channel message)
  | None => mret tt
  end.

(** The texts of [on_message]. *)
Definition link_dm : str :=
  [128683%N] ++ lit " **Links are not allowed in this server!**".

Definition link_log (message : Message) : str :=
  [10060%N] ++ lit " " ++ user_mention (message_author message)
  ++ lit " tried to send a link in "
  ++ channel_mention (message_channel message) ++ lit "." ++ [10%N]
  ++ lit "**Message:** " ++ take 100 (message_content message) ++ lit "...".

Definition mention_dm : str :=
  [9203%N] ++ lit " **You have been timed out for "
  ++ str_of_int (TIMEOUT_DURATION / 60) ++ lit " minutes**" ++ [10%N]
  ++ lit "Reason: Mentioning @everyone or @here without permission".

Definition mention_log (message : Message) : str :=
  [9888%N; 65039%N] ++ lit " " ++ user_mention (message_author message)
  ++ lit " was timed out for mass mentions in "
  ++ channel_mention (message_channel message).

(** [on_message], lines 68-75: link protection. *)
Definition link_protection (message : Message) : M unit :=
  wl ← get_whitelisted;
  if search LINK_PATTERN (message_content message)
     && negb (bool_decide (user_id (message_author message) ∈ wl))
  then
    call (MessageDelete (message_id message));;
    send_dm (message_author message) link_dm;;
    log_action (message_guild message) (link_log message)
  else mret tt.

(** [on_message], lines 77-90: mass mention protection. *)
Definition mass_mention_protection (message : Message) : M unit :=
  wl ← get_whitelisted;
  if existsb (fun mention => str_in mention (lower (message_content message)))
       [lit "@everyone"; lit "@here"]
     && negb (bool_decide (user_id (message_author message) ∈ wl))
  then
    call (MessageDelete (message_id message));;
    call (MemberTimeout (user_id (message_author message)) TIMEOUT_DURATION
            (lit "Mass mention violation"));;
    send_dm (message_author message) mention_dm;;
    log_action (message_guild message) (mention_log message)
  else mret tt.

(** [on_message], lines 62-92.  The last line is journalled as the call it
    is.  What the library then runs for the message, [whitelist],
    [unwhitelist] or [on_command_error], is embedded below as entry points of
    their own, which start from the world reached here: the allow-list is as
    [on_message] leaves it only up to that hand-over. *)
Definition on_message (message : Message) : M unit :=
  if user_bot (message_author message) then mret tt
  else
    link_protection message;;
    mass_mention_protection message;;
    call (ProcessCommands (message_id message)).

(** The log texts of the three security events. *)
Definition channel_log (actor : User) (channel : Channel) : str :=
  [128680%N] ++ lit " " ++ user_mention actor
  ++ lit " was banned for creating channel #" ++ channel_name channel.

Definition role_log (actor : User) (role : Role) : str :=
  [128680%N] ++ lit " " ++ user_mention actor
  ++ lit " was banned for creating role @" ++ role_name role.

Definition ban_log (actor user : User) : str :=
  [128680%N] ++ lit " " ++ user_mention actor
  ++ lit " was banned for trying to ban " ++ user_mention user.

(** The three security events.  [async for entry in ...audit_logs(...,
    limit=1)] runs the body on each entry the query returned. *)
Definition on_guild_channel_create (channel : Channel) : M unit :=
  for_each (audit_logs (channel_guild channel) channel_create 1) (fun entry =>
    wl ← get_whitelisted;
    if negb (bool_decide (user_id (entry_user entry) ∈ wl)) then
      call (ChannelDelete (channel_id channel));;
      call (MemberBan (user_id (entry_user entry))
              (lit "Unauthorized channel creation"));;
      log_action (channel_guild channel) (channel_log (entry_user entry) channel)
    else mret tt).

Definition on_guild_role_create (role : Role) : M unit :=
  for_each (audit_logs (role_guild role) role_create 1) (fun entry =>
    wl ← get_whitelisted;
    if negb (bool_decide (user_id (entry_user entry) ∈ wl)) then
      call (RoleDelete (role_id role));;
      call (MemberBan (user_id (entry_user entry))
              (lit "Unauthorized role creation"));;
      log_action (role_guild role) (role_log (entry_user entry) role)
    else mret tt).

Definition on_member_ban (guild : Guild) (user : User) : M unit :=
  for_each (audit_logs guild ban 1) (fun entry =>
    wl ← get_whitelisted;
    if negb (bool_decide (user_id (entry_user entry) ∈ wl)) then
      call (GuildBan (guild_id guild) (user_id (entry_user entry))
              (lit "Unauthorized ban attempt"));;
      log_action guild (ban_log (entry_user entry) user)
    else mret tt).

(** [@commands.is_owner()]: the check the library runs before the body. *)
Definition owner_only (ctx : Context) (body : M unit) : M unit :=
  if is_owner (ctx_author ctx) then body else raise (CommandErr NotOwner).

(** [whitelist], with [whitelisted.add(member.id)]. *)
Definition whitelist (ctx : Context) (member : User) : M unit :=
  owner_only ctx (
    wl ← get_whitelisted;
    set_whitelisted ({[ user_id member ]} ∪ wl);;
    call (ChannelSend (ctx_channel ctx)
            ([9989%N] ++ lit " " ++ user_mention member
             ++ lit " has been whitelisted."));;
    log_action (ctx_guild ctx)
      ([128221%N] ++ lit " " ++ user_mention (ctx_author ctx)
       ++ lit " whitelisted " ++ user_mention member)).

(** [unwhitelist], with [whitelisted.discard(member.id)]. *)
Definition unwhitelist (ctx : Context) (member : User) : M unit :=
  owner_only ctx (
    wl ← get_whitelisted;
    set_whitelisted (wl ∖ {[ user_id member ]});;
    call (ChannelSend (ctx_channel ctx)
            ([10060%N] ++ lit " " ++ user_mention member
             ++ lit " has been removed from whitelist."));;
    log_action (ctx_guild ctx)
      ([128221%N] ++ lit " " ++ user_mention (ctx_author ctx)
       ++ lit " unwhitelisted " ++ user_mention member)).

Definition on_command_error (ctx : Context) (error : CommandError) : M unit :=
  match error with
  | CommandNotFound => mret tt
  | MissingRequiredArgument =>
      call (ChannelSend (ctx_channel ctx)
              ([10060%N] ++ lit " Missing required arguments!"))
  | NotOwner =>
      call (ChannelSend (ctx_channel ctx)
              ([128683%N] ++ lit " This command is for bot owners only!"))
  | OtherCommandError text =>
      log_action (ctx_guild ctx)
        ([9888%N; 65039%N] ++ lit " Error in command " ++ ctx_command ctx
         ++ lit ": " ++ text);;
      raise (CommandErr error)
  end.

(** ** Vocabulary of the properties *)

(** [t] occurs in [s]. *)
Definition contains (t s : str) : Prop :=
  exists pre suf, s = pre ++ t ++ suf.

(** Some slice of [s] matches [LINK_PATTERN]. *)
Definition contains_link (s : str) : Prop :=
  exists pre u suf, s = pre ++ u ++ suf /\ matches LINK_PATTERN u.

(** The journal entries of a [log_action] that went through: one embed in
    the log channel, or nothing when the guild has no such channel. *)
Definition logged (guild : Guild) (message : str) : list (Call * option Exn) :=
  match get_channel guild LOG_CHANNEL_ID with
  | Some log_channel => [(ChannelSendEmbed log_channel message, None)]
  | None => []
  end.

(** A direct message either went through or was refused with [Forbidden]. *)
Definition dm_outcome (o : option Exn) : Prop :=
  o = None \/ o = Some Forbidden.

(** The entries of the link rule run to its end, [dm] being the outcome of
    the direct message. *)
Definition delete_and_warn (message : Message) (dm : option Exn)
  : list (Call * option Exn) :=
  [(MessageDelete (message_id message), None);
   (UserSend (user_id (message_author message)) (alert link_dm), dm)]
  ++ logged (message_guild message) (link_log message).

(** The entries of the mention rule run to its end. *)
Definition timeout_and_warn (message : Message) (dm : option Exn)
  : list (Call * option Exn) :=
  [(MessageDelete (message_id message), None);
   (MemberTimeout (user_id (message_author message)) 600
      (lit "Mass mention violation"), None);
   (UserSend (user_id (message_author message)) (alert mention_dm), dm)]
  ++ logged (message_guild message) (mention_log message).

(** Both message rules, in the order [on_message] applies them. *)
Definition policy_checks (message : Message) : M unit :=
  link_protection message;; mass_mention_protection message.

(** The three events whose actor is looked up in the audit log, and the
    handler the library calls for each. *)
Inductive StructuralEvent : Type :=
| ChannelCreated (channel : Channel)
| RoleCreated (role : Role)
| MemberBanned (guild : Guild) (user : User).

Definition handle (ev : StructuralEvent) : M unit :=
  match ev with
  | ChannelCreated channel => on_guild_channel_create channel
  | RoleCreated role => on_guild_role_create role
  | MemberBanned guild user => on_member_ban guild user
  end.

(** The guild and the audit-log action that the handler of [ev] looks up. *)
Definition event_guild (ev : StructuralEvent) : Guild :=
  match ev with
  | ChannelCreated channel => channel_guild channel
  | RoleCreated role => role_guild role
  | MemberBanned guild _ => guild
  end.

Definition event_action (ev : StructuralEvent) : AuditLogAction :=
  match ev with
  | ChannelCreated _ => channel_create
  | RoleCreated _ => role_create
  | MemberBanned _ _ => ban
  end.

(** The newest entry of action [a] in the audit log of [guild]. *)
Definition newest (guild : Guild) (a : AuditLogAction) : option AuditLogEntry :=
  head (filter (fun e => action_eqb (entry_action e) a = true) (guild_audit_log guild)).

(** The entries of a revert-and-ban of [actor] that went through. *)
Definition revert_and_ban (ev : StructuralEvent) (actor : User)
  : list (Call * option Exn) :=
  match ev with
  | ChannelCreated channel =>
      [(ChannelDelete (channel_id channel), None);
       (MemberBan (user_id actor) (lit "Unauthorized channel creation"), None)]
      ++ logged (channel_guild channel) (channel_log actor channel)
  | RoleCreated role =>
      [(RoleDelete (role_id role), None);
       (MemberBan (user_id actor) (lit "Unauthorized role creation"), None)]
      ++ logged (role_guild role) (role_log actor role)
  | MemberBanned guild user =>
      [(GuildBan (guild_id guild) (user_id actor) (lit "Unauthorized ban attempt"), None)]
      ++ logged guild (ban_log actor user)
  end.

(** Journal entries that let a handler go on: calls that went through, and
    direct messages refused with [Forbidden]. *)
Definition harmless (e : Call * option Exn) : Prop :=
  snd e = None \/ exists user text, e = (UserSend user text, Some Forbidden).

(** The entries [es] are what the platform answered, starting from journal
    [j]. *)
Inductive answered : list (Call * option Exn) -> list (Call * option Exn) -> Prop :=
| answered_nil j : answered j []
| answered_cons j c es :
    answered (j ++ [(c, platform j c)]) es ->
    answered j ((c, platform j c) :: es).

(** How the entries [es] of one run relate to its result: a run that returns
    met harmless entries only; a run that raises [e] stopped at the call that
    raised [e], after harmless entries. *)
Definition run_shape {A : Type} (r : Result A) (es : list (Call * option Exn)) : Prop :=
  match r with
  | Ok _ => Forall harmless es
  | Raise e =>
      exists es0 c, es = es0 ++ [(c, Some e)] /\ Forall harmless es0
        /\ ~ harmless (c, Some e)
  end.

(** A computation that leaves [whitelisted] alone and stops at the first
    call that raises, direct messages refused with [Forbidden] apart. *)
Definition orderly {A : Type} (m : M A) : Prop :=
  forall w r w', m w = (r, w') ->
    exists es, w' = extend w es /\ answered (journal w) es /\ run_shape r es.

(** A computation that, run where the allow-list is [wl], leaves it alone
    and issues only calls that [allowed] admits. *)
Definition confined_at {A : Type} (wl : gset Z) (allowed : Call -> Prop) (m : M A) : Prop :=
  forall w r w', whitelisted w = wl -> m w = (r, w') ->
    exists es, w' = extend w es /\ Forall (fun e => allowed (fst e)) es.

(** ** Text and patterns: the executable tests meet their meaning *)

Lemma startswith_spec (t s : str) :
  startswith t s = true <-> exists suf, s = t ++ suf.
Proof.
  revert s; induction t as [|a t IH]; intros s; simpl.
  - split; [intros _; by exists s | done].
  - destruct s as [|b s]; simpl.
    + split; [done | intros [suf H]; discriminate].
    + rewrite andb_true_iff, N.eqb_eq, IH. split.
      * intros [-> [suf ->]]. by exists suf.
      * intros [suf H]. injection H as -> ->. eauto.
Qed.

Lemma str_in_spec (t s : str) :
  str_in t s = true <-> exists pre suf, s = pre ++ t ++ suf.
Proof.
  induction s as [|b s IH]; cbn [str_in]; rewrite orb_true_iff, startswith_spec.
  - split.
    + intros [[suf H] | H]; [|done]. exists [], suf. done.
    + intros (pre & suf & H). left. destruct pre; [by exists suf|done].
  - rewrite IH. split.
    + intros [[suf H] | (pre & suf & H)].
      * exists [], suf. done.
      * exists (b :: pre), suf. by rewrite H.
    + intros (pre & suf & H). destruct pre as [|b' pre]; simpl in H.
      * left. by exists suf.
      * right. injection H as -> ->. by exists pre, suf.
Qed.

Lemma nullable_spec (r : regex) : nullable r = true <-> matches r [].
Proof.
  split.
  - induction r; simpl; intros H; try discriminate.
    + constructor.
    + apply andb_true_iff in H as [H1 H2].
      apply (matches_cat _ _ [] []); auto.
    + apply orb_true_iff in H as [H|H]; [apply matches_alt_l | apply matches_alt_r]; auto.
    + constructor.
  - intros H. remember [] as w eqn:Hw.
    induction H; simpl; try discriminate; auto.
    + apply app_eq_nil in Hw as [-> ->]. rewrite IHmatches1, IHmatches2; auto.
    + rewrite IHmatches; auto.
    + rewrite IHmatches; auto using orb_true_r.
Qed.

Lemma deriv_sound (c : N) (r : regex) (s : str) :
  matches (deriv c r) s -> matches r (c :: s).
Proof.
  revert s; induction r; simpl; intros s H.
  - inversion H.
  - inversion H.
  - destruct (N.eqb_spec c c0) as [->|]; inversion H; subst. constructor.
  - destruct (isspace c) eqn:Hc; inversion H; subst. by constructor.
  - assert (Hcat : forall s, matches (Cat (deriv c r1) r2) s -> matches (Cat r1 r2) (c :: s)).
    { intros s' H'. inversion H'; subst.
      apply (matches_cat _ _ (c :: u) v); auto. }
    destruct (nullable r1) eqn:Hn; [|by apply Hcat].
    inversion H; subst; [by apply Hcat|].
    apply (matches_cat _ _ [] (c :: s)); [by apply nullable_spec | auto].
  - inversion H; subst; [apply matches_alt_l | apply matches_alt_r]; auto.
  - inversion H; subst.
    apply (matches_star_app _ (c :: u) v); auto.
Qed.

Lemma deriv_complete (c : N) (r : regex) (s : str) :
  matches r (c :: s) -> matches (deriv c r) s.
Proof.
  intros H. remember (c :: s) as w eqn:Hw. revert s Hw.
  induction H; intros s Hw; simpl; try discriminate.
  - injection Hw as -> <-. rewrite N.eqb_refl. constructor.
  - injection Hw as -> <-. rewrite H. constructor.
  - destruct u as [|a u]; simpl in Hw.
    + subst v. rewrite (proj2 (nullable_spec r1) H).
      apply matches_alt_r. auto.
    + injection Hw as -> <-.
      assert (Hl : matches (Cat (deriv c r1) r2) (u ++ v)) by (constructor; auto).
      destruct (nullable r1); [by apply matches_alt_l | done].
  - apply matches_alt_l; auto.
  - apply matches_alt_r; auto.
  - destruct u as [|a u]; simpl in Hw.
    + subst v. apply IHmatches2. done.
    + injection Hw as -> <-. constructor; auto.
Qed.

Lemma re_match_spec (r : regex) (s : str) :
  re_match r s = true <-> exists u suf, s = u ++ suf /\ matches r u.
Proof.
  revert r; induction s as [|c s IH]; intros r; simpl; rewrite orb_true_iff.
  - rewrite nullable_spec. split.
    + intros [H|H]; [|done]. by exists [], [].
    + intros (u & suf & Hs & H). symmetry in Hs.
      apply app_eq_nil in Hs as [-> ->]. by left.
  - rewrite nullable_spec, IH. split.
    + intros [H | (u & suf & -> & H)].
      * by exists [], (c :: s).
      * exists (c :: u), suf. split; [done | by apply deriv_sound].
    + intros (u & suf & Hs & H). destruct u as [|a u]; simpl in Hs.
      * by left.
      * injection Hs as -> ->. right. exists u, suf.
        split; [done | by apply deriv_complete].
Qed.

Lemma search_spec (r : regex) (s : str) :
  search r s = true <-> exists pre u suf, s = pre ++ u ++ suf /\ matches r u.
Proof.
  induction s as [|c s IH]; cbn [search]; rewrite orb_true_iff, re_match_spec.
  - split.
    + intros [(u & suf & Hs & H) | H]; [|done]. by exists [], u, suf.
    + intros (pre & u & suf & Hs & H). left. destruct pre; [|done]. by exists u, suf.
  - rewrite IH. split.
    + intros [(u & suf & Hs & H) | (pre & u & suf & -> & H)].
      * by exists [], u, suf.
      * by exists (c :: pre), u, suf.
    + intros (pre & u & suf & Hs & H). destruct pre as [|c' pre]; simpl in Hs.
      * left. by exists u, suf.
      * injection Hs as -> ->. right. by exists pre, u, suf.
Qed.

(** ** Running the monad *)

Lemma extend_nil (w : World) : extend w [] = w.
Proof. destruct w. unfold extend. simpl. by rewrite app_nil_r. Qed.

Lemma extend_extend (w : World) (es es' : list (Call * option Exn)) :
  extend (extend w es) es' = extend w (es ++ es').
Proof. unfold extend. simpl. by rewrite app_assoc. Qed.

Lemma bind_Ok {A B : Type} (m : M A) (k : A -> M B) (w w' : World) (b : B) :
  (m ≫= k) w = (Ok b, w') ->
  exists a w1, m w = (Ok a, w1) /\ k a w1 = (Ok b, w').
Proof.
  unfold mbind, M_bind. destruct (m w) as [[a|e] w1]; [eauto | discriminate].
Qed.

Lemma bind_run_Ok {A B : Type} (m : M A) (k : A -> M B) (w w1 : World) (a : A) :
  m w = (Ok a, w1) -> (m ≫= k) w = k a w1.
Proof. unfold mbind, M_bind. by intros ->. Qed.

Lemma bind_run_Raise {A B : Type} (m : M A) (k : A -> M B) (w w1 : World) (e : Exn) :
  m w = (Raise e, w1) -> (m ≫= k) w = (Raise e, w1).
Proof. unfold mbind, M_bind. by intros ->. Qed.

Lemma call_Ok (c : Call) (w w' : World) :
  call c w = (Ok tt, w') ->
  platform (journal w) c = None /\ w' = extend w [(c, None)].
Proof.
  unfold call. destruct (platform (journal w) c); [discriminate|].
  by intros [= <-].
Qed.

Lemma send_dm_Ok (user : User) (message : str) (w w' : World) :
  send_dm user message w = (Ok tt, w') ->
  exists dm, dm_outcome dm /\ platform (journal w) (UserSend (user_id user) (alert message)) = dm
    /\ w' = extend w [(UserSend (user_id user) (alert message), dm)].
Proof.
  unfold send_dm, try_except, call, dm_outcome.
  destruct (platform _ _) as [[]|]; intros [= <-]; eauto.
Qed.

Lemma log_action_Ok (guild : Guild) (message : str) (w w' : World) :
  log_action guild message w = (Ok tt, w') ->
  w' = extend w (logged guild message).
Proof.
  unfold log_action, logged. destruct (get_channel guild LOG_CHANNEL_ID).
  - intros H. by apply call_Ok in H as [_ ->].
  - intros [= <-]. by rewrite extend_nil.
Qed.

(** ** Orderly computations *)

Lemma answered_app (j es1 es2 : list (Call * option Exn)) :
  answered j es1 -> answered (j ++ es1) es2 -> answered j (es1 ++ es2).
Proof.
  induction 1 as [j | j c es H IH]; intros H2.
  - by rewrite app_nil_r in H2.
  - simpl. constructor. apply IH. by rewrite <- app_assoc.
Qed.

Lemma answered_one (j : list (Call * option Exn)) (c : Call) :
  answered j [(c, platform j c)].
Proof. constructor. constructor. Qed.

Lemma orderly_ret {A : Type} (a : A) : orderly (mret a).
Proof.
  intros w r w' [= <- <-]. exists []. rewrite extend_nil.
  split; [done|]. split; [constructor | by apply Forall_nil].
Qed.

Lemma orderly_get_whitelisted : orderly get_whitelisted.
Proof.
  intros w r w' [= <- <-]. exists []. rewrite extend_nil.
  split; [done|]. split; [constructor | by apply Forall_nil].
Qed.

Lemma orderly_bind {A B : Type} (m : M A) (k : A -> M B) :
  orderly m -> (forall a, orderly (k a)) -> orderly (m ≫= k).
Proof.
  intros Hm Hk w r w' H. unfold mbind, M_bind in H.
  destruct (m w) as [[a|e] w1] eqn:Hmw.
  - destruct (Hm _ _ _ Hmw) as (es1 & -> & Ha1 & Hs1).
    destruct (Hk a _ _ _ H) as (es2 & -> & Ha2 & Hs2).
    exists (es1 ++ es2). rewrite extend_extend. split; [done|].
    split; [by apply answered_app|].
    simpl in Hs1. destruct r as [b|e]; simpl in *.
    + by apply Forall_app.
    + destruct Hs2 as (es0 & c & -> & Hes0 & Hc).
      exists (es1 ++ es0), c. rewrite app_assoc. split; [done|].
      split; [by apply Forall_app | done].
  - injection H as <- <-. exact (Hm _ _ _ Hmw).
Qed.

Lemma orderly_call (c : Call) :
  (forall user text, c <> UserSend user text) -> orderly (call c).
Proof.
  intros Hc w r w' H. unfold call in H. injection H as <- <-.
  exists [(c, platform (journal w) c)].
  split; [done|]. split; [apply answered_one|].
  destruct (platform (journal w) c) as [e|]; simpl.
  - exists [], c. split; [done|]. split; [by apply Forall_nil|].
    intros [H | (u & t & [= H _])]; [discriminate | by eapply Hc].
  - apply Forall_singleton. by left.
Qed.

Lemma orderly_send_dm (user : User) (message : str) : orderly (send_dm user message).
Proof.
  intros w r w' H. unfold send_dm, try_except, call in H.
  exists [(UserSend (user_id user) (alert message),
           platform (journal w) (UserSend (user_id user) (alert message)))].
  destruct (platform (journal w) _) as [e|] eqn:Hp.
  - destruct (is_Forbidden e) eqn:He; injection H as <- <-;
      (split; [done|]); (split; [rewrite <- Hp; apply answered_one|]); simpl.
    + destruct e; try discriminate. apply Forall_singleton. right. eauto.
    + eexists [], _. split; [done|]. split; [by apply Forall_nil|].
      intros [H | (u & t & [= _ _ ->])]; discriminate.
  - injection H as <- <-. split; [done|].
    split; [rewrite <- Hp; apply answered_one|]. apply Forall_singleton. by left.
Qed.

Lemma orderly_log_action (guild : Guild) (message : str) :
  orderly (log_action guild message).
Proof.
  unfold log_action. destruct (get_channel guild LOG_CHANNEL_ID).
  - by apply orderly_call.
  - apply orderly_ret.
Qed.

Lemma orderly_for_each {A : Type} (xs : list A) (body : A -> M unit) :
  (forall x, orderly (body x)) -> orderly (for_each xs body).
Proof.
  intros Hb. induction xs as [|x xs IH]; simpl.
  - apply orderly_ret.
  - apply orderly_bind; auto.
Qed.

Create HintDb orderly.
#[local] Hint Resolve orderly_ret orderly_get_whitelisted orderly_send_dm
  orderly_log_action : orderly.

Ltac orderly_step :=
  first
    [ apply orderly_bind; [|intros ?]
    | apply orderly_for_each; intros ?
    | apply orderly_call; intros ? ?; discriminate
    | solve [auto with orderly]
    | match goal with |- orderly (if ?b then _ else _) => destruct b end ].

Lemma orderly_link_protection (message : Message) : orderly (link_protection message).
Proof. unfold link_protection. repeat orderly_step. Qed.

Lemma orderly_mass_mention_protection (message : Message) :
  orderly (mass_mention_protection message).
Proof. unfold mass_mention_protection. repeat orderly_step. Qed.

Lemma orderly_on_message (message : Message) : orderly (on_message message).
Proof.
  unfold on_message. destruct (user_bot _); [apply orderly_ret|].
  apply orderly_bind; [apply orderly_link_protection | intros _].
  apply orderly_bind; [apply orderly_mass_mention_protection | intros _].
  repeat orderly_step.
Qed.

Lemma orderly_on_guild_channel_create (channel : Channel) :
  orderly (on_guild_channel_create channel).
Proof. unfold on_guild_channel_create. repeat orderly_step. Qed.

Lemma orderly_on_guild_role_create (role : Role) :
  orderly (on_guild_role_create role).
Proof. unfold on_guild_role_create. repeat orderly_step. Qed.

Lemma orderly_on_member_ban (guild : Guild) (user : User) :
  orderly (on_member_ban guild user).
Proof. unfold on_member_ban. repeat orderly_step. Qed.

(** A computation that starts with a call journals that call first. *)
Lemma call_first (c : Call) (k : M unit) (w w' : World) (r : Result unit) :
  orderly k -> (call c ;; k) w = (r, w') ->
  exists es, w' = extend w ((c, platform (journal w) c) :: es).
Proof.
  intros Hk H. unfold mbind, M_bind, call in H.
  destruct (platform (journal w) c) as [e|].
  - injection H as <- <-. by exists [].
  - destruct (Hk _ _ _ H) as (es & -> & _). exists es. by rewrite extend_extend.
Qed.

(** With a platform that accepts every call, an orderly computation
    returns. *)
Lemma answered_accepting (j es : list (Call * option Exn)) :
  (forall j c, platform j c = None) ->
  answered j es -> Forall (fun e => snd e = None) es.
Proof.
  intros Hp. induction 1 as [j | j c es H IH]; constructor; [apply Hp | auto].
Qed.

Lemma orderly_returns {A : Type} (m : M A) (w : World) :
  (forall j c, platform j c = None) -> orderly m ->
  exists a es, m w = (Ok a, extend w es).
Proof.
  intros Hp Hm. destruct (m w) as [[a|e] w'] eqn:Hmw.
  - destruct (Hm _ _ _ Hmw) as (es & -> & _). eauto.
  - destruct (Hm _ _ _ Hmw) as (es & -> & Ha & es0 & c & -> & _).
    apply (answered_accepting _ _ Hp) in Ha.
    rewrite Forall_app, Forall_singleton in Ha. destruct Ha as [_ Ha]. discriminate.
Qed.

(** ** The message rules *)

Lemma contains_link_search (s : str) :
  contains_link s <-> search LINK_PATTERN s = true.
Proof. unfold contains_link. by rewrite search_spec. Qed.

Lemma matches_Lit (t : str) : matches (Lit t) t.
Proof.
  induction t as [|c t IH]; simpl; [constructor|].
  apply (matches_cat _ _ [c] t); [constructor | done].
Qed.

Lemma matches_Lit_inv (t u : str) : matches (Lit t) u -> u = t.
Proof.
  revert u; induction t as [|c t IH]; simpl; intros u H.
  - by inversion H.
  - inversion H as [| | |? ? u1 u2 H1 H2| | | |]; subst.
    inversion H1; subst. simpl. f_equal. by apply IH.
Qed.

Lemma matches_Plus_NonSpace (c : N) : isspace c = false -> matches (Plus NonSpace) [c].
Proof.
  intros Hc. apply (matches_cat _ _ [c] []); [by constructor | constructor].
Qed.

Lemma matches_Plus_NonSpace_inv (u : str) :
  matches (Plus NonSpace) u -> exists c rest, u = c :: rest /\ isspace c = false.
Proof.
  intros H. inversion H as [| | |? ? u1 u2 H1 H2| | | |]; subst.
  inversion H1; subst. eauto.
Qed.

(** The slices [LINK_PATTERN] finds: "http://", "https://" or "www." and at
    least one character after it that is not white space. *)
Lemma contains_link_tokens (s : str) :
  contains_link s <->
  exists token c,
    (token = lit "http://" \/ token = lit "https://" \/ token = lit "www.")
    /\ isspace c = false /\ contains (token ++ [c]) s.
Proof.
  split.
  - intros (pre & u & suf & -> & H). unfold LINK_PATTERN in H.
    inversion H as [| | | |? ? ? Hl|? ? ? Hr| |]; subst.
    + inversion Hl as [| | |? ? u1 u' H1 H'| | | |]; subst.
      apply (matches_Lit_inv (lit "http")) in H1 as ->.
      inversion H' as [| | |? ? u2 u'' H2 H''| | | |]; subst.
      inversion H'' as [| | |? ? u3 u4 H3 H4| | | |]; subst.
      apply (matches_Lit_inv (lit "://")) in H3 as ->.
      apply matches_Plus_NonSpace_inv in H4 as (c & rest & -> & Hc).
      inversion H2 as [| | | |? ? ? Hs|? ? ? He| |]; subst.
      * inversion Hs; subst. exists (lit "https://"), c.
        split; [auto|]. split; [done|]. exists pre, (rest ++ suf).
        by rewrite <- !app_assoc.
      * inversion He; subst. exists (lit "http://"), c.
        split; [auto|]. split; [done|]. exists pre, (rest ++ suf).
        by rewrite <- !app_assoc.
    + inversion Hr as [| | |? ? u1 u' H1 H'| | | |]; subst.
      apply (matches_Lit_inv (lit "www")) in H1 as ->.
      inversion H' as [| | |? ? u2 u'' H2 H''| | | |]; subst.
      inversion H2; subst.
      apply matches_Plus_NonSpace_inv in H'' as (c & rest & -> & Hc).
      exists (lit "www."), c.
      split; [auto|]. split; [done|]. exists pre, (rest ++ suf).
      by rewrite <- !app_assoc.
  - intros (token & c & Ht & Hc & pre & suf & ->).
    exists pre, (token ++ [c]), suf. split; [done|].
    destruct Ht as [-> | [-> | ->]].
    + apply matches_alt_l.
      apply (matches_cat _ _ (lit "http") ([] ++ lit "://" ++ [c])); [apply matches_Lit|].
      apply (matches_cat _ _ [] (lit "://" ++ [c])); [apply matches_alt_r; constructor|].
      apply (matches_cat _ _ (lit "://") [c]); [apply matches_Lit|].
      by apply matches_Plus_NonSpace.
    + apply matches_alt_l.
      apply (matches_cat _ _ (lit "http") ([115%N] ++ lit "://" ++ [c])); [apply matches_Lit|].
      apply (matches_cat _ _ [115%N] (lit "://" ++ [c])); [apply matches_alt_l; constructor|].
      apply (matches_cat _ _ (lit "://") [c]); [apply matches_Lit|].
      by apply matches_Plus_NonSpace.
    + apply matches_alt_r.
      apply (matches_cat _ _ (lit "www") ([46%N] ++ [c])); [apply matches_Lit|].
      apply (matches_cat _ _ [46%N] [c]); [constructor|].
      by apply matches_Plus_NonSpace.
Qed.

Lemma mention_test (s : str) :
  existsb (fun mention => str_in mention s) [lit "@everyone"; lit "@here"] = true
  <-> contains (lit "@everyone") s \/ contains (lit "@here") s.
Proof.
  unfold contains. cbn [existsb]. rewrite orb_false_r, orb_true_iff.
  by rewrite !str_in_spec.
Qed.

(** Peel the runs that returned into the runs of their steps. *)
Ltac peel :=
  repeat match goal with
    | a : unit |- _ => destruct a
    | H : (_ ≫= _) _ = (Ok _, _) |- _ =>
        apply bind_Ok in H as (? & ? & ? & ?)
    | H : call _ _ = (Ok _, _) |- _ => apply call_Ok in H as [? ->]
    | H : send_dm _ _ _ = (Ok _, _) |- _ =>
        let dm := fresh "dm" in apply send_dm_Ok in H as (dm & ? & ? & ->)
    | H : log_action _ _ _ = (Ok _, _) |- _ => apply log_action_Ok in H as ->
    | H : get_whitelisted _ = (Ok _, _) |- _ => injection H as <- <-
    | H : mret _ _ = (Ok _, _) |- _ => injection H as <-
    end.

Lemma link_protection_fires (message : Message) (w : World) :
  contains_link (message_content message) ->
  user_id (message_author message) ∉ whitelisted w ->
  link_protection message w =
    (call (MessageDelete (message_id message));;
     send_dm (message_author message) link_dm;;
     log_action (message_guild message) (link_log message)) w.
Proof.
  intros Hl Hw. apply contains_link_search in Hl.
  unfold link_protection at 1. unfold mbind at 1, M_bind at 1, get_whitelisted.
  by rewrite Hl, (bool_decide_eq_false_2 _ Hw).
Qed.

Lemma link_protection_skips (message : Message) (w : World) :
  user_id (message_author message) ∈ whitelisted w ->
  link_protection message w = (Ok tt, w).
Proof.
  intros Hw. unfold link_protection, mbind, M_bind, get_whitelisted.
  by rewrite (bool_decide_eq_true_2 _ Hw), andb_false_r.
Qed.

Lemma link_protection_first (message : Message) (w w' : World) (r : Result unit) :
  contains_link (message_content message) ->
  user_id (message_author message) ∉ whitelisted w ->
  link_protection message w = (r, w') ->
  exists es, w' = extend w
    ((MessageDelete (message_id message),
      platform (journal w) (MessageDelete (message_id message))) :: es).
Proof.
  intros Hl Hw. rewrite link_protection_fires by done.
  intros H. apply call_first in H; [done|]. repeat orderly_step.
Qed.

Lemma link_protection_Ok (message : Message) (w w' : World) :
  contains_link (message_content message) ->
  user_id (message_author message) ∉ whitelisted w ->
  link_protection message w = (Ok tt, w') ->
  exists dm, dm_outcome dm /\ w' = extend w (delete_and_warn message dm).
Proof.
  intros Hl Hw. rewrite link_protection_fires by done.
  intros H. peel. exists dm. split; [done|]. by rewrite !extend_extend.
Qed.

Lemma mass_mention_protection_fires (message : Message) (w : World) :
  contains (lit "@everyone") (lower (message_content message))
  \/ contains (lit "@here") (lower (message_content message)) ->
  user_id (message_author message) ∉ whitelisted w ->
  mass_mention_protection message w =
    (call (MessageDelete (message_id message));;
     call (MemberTimeout (user_id (message_author message)) 600
             (lit "Mass mention violation"));;
     send_dm (message_author message) mention_dm;;
     log_action (message_guild message) (mention_log message)) w.
Proof.
  intros Hm Hw. apply mention_test in Hm.
  unfold mass_mention_protection at 1.
  unfold mbind at 1, M_bind at 1, get_whitelisted.
  by rewrite Hm, (bool_decide_eq_false_2 _ Hw).
Qed.

Lemma mass_mention_protection_skips (message : Message) (w : World) :
  user_id (message_author message) ∈ whitelisted w ->
  mass_mention_protection message w = (Ok tt, w).
Proof.
  intros Hw. unfold mass_mention_protection, mbind, M_bind, get_whitelisted.
  by rewrite (bool_decide_eq_true_2 _ Hw), andb_false_r.
Qed.

Lemma mass_mention_protection_first (message : Message) (w w' : World) (r : Result unit) :
  contains (lit "@everyone") (lower (message_content message))
  \/ contains (lit "@here") (lower (message_content message)) ->
  user_id (message_author message) ∉ whitelisted w ->
  mass_mention_protection message w = (r, w') ->
  exists es, w' = extend w
    ((MessageDelete (message_id message),
      platform (journal w) (MessageDelete (message_id message))) :: es).
Proof.
  intros Hm Hw. rewrite mass_mention_protection_fires by done.
  intros H. apply call_first in H; [done|]. repeat orderly_step.
Qed.

Lemma mass_mention_protection_Ok (message : Message) (w w' : World) :
  contains (lit "@everyone") (lower (message_content message))
  \/ contains (lit "@here") (lower (message_content message)) ->
  user_id (message_author message) ∉ whitelisted w ->
  mass_mention_protection message w = (Ok tt, w') ->
  exists dm, dm_outcome dm /\ w' = extend w (timeout_and_warn message dm).
Proof.
  intros Hm Hw. rewrite mass_mention_protection_fires by done.
  intros H. peel. exists dm. split; [done|]. by rewrite !extend_extend.
Qed.

Lemma link_protection_accepted (message : Message) (w : World) :
  contains_link (message_content message) ->
  user_id (message_author message) ∉ whitelisted w ->
  (forall j c, platform j c = None) ->
  link_protection message w = (Ok tt, extend w (delete_and_warn message None)).
Proof.
  intros Hl Hw Hp. rewrite link_protection_fires by done.
  unfold mbind, M_bind, send_dm, try_except, log_action, delete_and_warn, logged, call.
  rewrite !Hp. by destruct (get_channel _ _); rewrite ?Hp, ?extend_extend.
Qed.

Lemma mass_mention_protection_accepted (message : Message) (w : World) :
  contains (lit "@everyone") (lower (message_content message))
  \/ contains (lit "@here") (lower (message_content message)) ->
  user_id (message_author message) ∉ whitelisted w ->
  (forall j c, platform j c = None) ->
  mass_mention_protection message w
    = (Ok tt, extend w (timeout_and_warn message None)).
Proof.
  intros Hm Hw Hp. rewrite mass_mention_protection_fires by done.
  unfold mbind, M_bind, send_dm, try_except, log_action, timeout_and_warn, logged, call.
  rewrite !Hp. by destruct (get_channel _ _); rewrite ?Hp, ?extend_extend.
Qed.

Lemma on_message_human (message : Message) (w : World) :
  user_bot (message_author message) = false ->
  on_message message w =
    (link_protection message ;;
     mass_mention_protection message ;;
     call (ProcessCommands (message_id message))) w.
Proof. intros Hb. unfold on_message. by rewrite Hb. Qed.

(** C1. A message whose body has a slice matching the URL pattern, from an
    author outside the allow-list: the link rule deletes the message (the
    delete is issued whatever the platform answers), and when the rule runs
    to its end it has deleted the message, sent the author the warning (which
    went through or was refused) and logged the action, in that order and
    nothing else; it does run to its end when the platform accepts the
    calls.  From an allow-listed author the link rule does nothing,
    whatever the body.  [on_message] applies the rule first to every message
    it does not ignore: when it runs to its end on such a message from a
    human author, its journal starts with those three entries. *)
Theorem link_rule_verdict (message : Message) (w : World) :
  (contains_link (message_content message) ->
   user_id (message_author message) ∉ whitelisted w ->
     (forall r w', link_protection message w = (r, w') ->
        exists es, w' = extend w
          ((MessageDelete (message_id message),
            platform (journal w) (MessageDelete (message_id message))) :: es))
     /\ (forall w', link_protection message w = (Ok tt, w') ->
           exists dm, dm_outcome dm /\
             w' = extend w
               ([(MessageDelete (message_id message), None);
                 (UserSend (user_id (message_author message)) (alert link_dm), dm)]
                ++ logged (message_guild message) (link_log message)))
     /\ ((forall j c, platform j c = None) ->
           link_protection message w =
             (Ok tt, extend w
                ([(MessageDelete (message_id message), None);
                  (UserSend (user_id (message_author message)) (alert link_dm), None)]
                 ++ logged (message_guild message) (link_log message))))
     /\ (user_bot (message_author message) = false ->
         forall w', on_message message w = (Ok tt, w') ->
           exists dm es, dm_outcome dm /\
             w' = extend w
               ([(MessageDelete (message_id message), None);
                 (UserSend (user_id (message_author message)) (alert link_dm), dm)]
                ++ logged (message_guild message) (link_log message) ++ es)))
  /\ (user_id (message_author message) ∈ whitelisted w ->
        link_protection message w = (Ok tt, w)).
Proof.
  split.
  - intros Hl Hw. split; [|split; [|split]].
    + intros r w'. by apply link_protection_first.
    + intros w'. by apply link_protection_Ok.
    + by apply link_protection_accepted.
    + intros Hb w'. rewrite on_message_human by done. intros H.
      apply bind_Ok in H as ([] & w1 & Hlink & Hrest).
      apply link_protection_Ok in Hlink as (dm & Hdm & ->); [|done..].
      assert (Ho : orderly (mass_mention_protection message;;
                            call (ProcessCommands (message_id message))))
        by repeat orderly_step || apply orderly_mass_mention_protection.
      destruct (Ho _ _ _ Hrest) as (es & -> & _).
      exists dm, es. split; [done|].
      rewrite extend_extend. unfold delete_and_warn. by rewrite <- !app_assoc.
  - apply link_protection_skips.
Qed.

(** C2. A message whose lower-cased body contains "@everyone" or "@here",
    from an author outside the allow-list: the mention rule deletes the
    message (the delete is issued whatever the platform answers), and when
    the rule runs to its end it has deleted the message, timed the author out
    for 600 seconds with reason "Mass mention violation", sent the warning
    and logged the action, in that order and nothing else; it does run to its
    end when the platform accepts the calls.  From an allow-listed author
    the rule does nothing, whatever the body.
    [on_message] applies the rule to every message it does not ignore: when
    it runs to its end on such a message from a human author, its journal
    ends with those four entries and the hand-over to command processing. *)
Theorem mass_mention_rule_verdict (message : Message) (w : World) :
  (contains (lit "@everyone") (lower (message_content message))
   \/ contains (lit "@here") (lower (message_content message)) ->
   user_id (message_author message) ∉ whitelisted w ->
     (forall r w', mass_mention_protection message w = (r, w') ->
        exists es, w' = extend w
          ((MessageDelete (message_id message),
            platform (journal w) (MessageDelete (message_id message))) :: es))
     /\ (forall w', mass_mention_protection message w = (Ok tt, w') ->
           exists dm, dm_outcome dm /\
             w' = extend w
               ([(MessageDelete (message_id message), None);
                 (MemberTimeout (user_id (message_author message)) 600
                    (lit "Mass mention violation"), None);
                 (UserSend (user_id (message_author message)) (alert mention_dm), dm)]
                ++ logged (message_guild message) (mention_log message)))
     /\ ((forall j c, platform j c = None) ->
           mass_mention_protection message w =
             (Ok tt, extend w
                ([(MessageDelete (message_id message), None);
                  (MemberTimeout (user_id (message_author message)) 600
                     (lit "Mass mention violation"), None);
                  (UserSend (user_id (message_author message)) (alert mention_dm), None)]
                 ++ logged (message_guild message) (mention_log message))))
     /\ (user_bot (message_author message) = false ->
         forall w', on_message message w = (Ok tt, w') ->
           exists es dm, dm_outcome dm /\
             w' = extend w
               (es ++
                [(MessageDelete (message_id message), None);
                 (MemberTimeout (user_id (message_author message)) 600
                    (lit "Mass mention violation"), None);
                 (UserSend (user_id (message_author message)) (alert mention_dm), dm)]
                ++ logged (message_guild message) (mention_log message)
                ++ [(ProcessCommands (message_id message), None)])))
  /\ (user_id (message_author message) ∈ whitelisted w ->
        mass_mention_protection message w = (Ok tt, w)).
Proof.
  split.
  - intros Hm Hw. split; [|split; [|split]].
    + intros r w'. by apply mass_mention_protection_first.
    + intros w'. by apply mass_mention_protection_Ok.
    + by apply mass_mention_protection_accepted.
    + intros Hb w'. rewrite on_message_human by done. intros H.
      apply bind_Ok in H as ([] & w1 & Hlink & H).
      apply bind_Ok in H as ([] & w2 & Hment & H).
      apply call_Ok in H as [_ ->].
      destruct (orderly_link_protection _ _ _ _ Hlink) as (es & -> & _).
      apply mass_mention_protection_Ok in Hment as (dm & Hdm & ->); [|done..].
      exists es, dm. split; [done|].
      rewrite !extend_extend. unfold timeout_and_warn. by rewrite <- !app_assoc.
  - apply mass_mention_protection_skips.
Qed.

(** C4. A message with both a URL and a mass mention, from an author outside
    the allow-list.  In every run of the two rules the link rule goes first
    and alone: either it raises, and the run stops there with nothing of the
    mention rule begun, or it runs to its end (delete, warning, log) and only
    then is the first call of the mention rule, its delete, issued.  When
    both rules run to their end, as they do when the platform accepts the
    calls, the journal holds the link rule's entries and then the mention
    rule's (delete, timeout, warning, log); and
    [on_message], on such a message from a human author, ends with exactly
    these and the hand-over to command processing. *)
Theorem link_then_mention (message : Message) (w : World) :
  contains_link (message_content message) ->
  contains (lit "@everyone") (lower (message_content message))
  \/ contains (lit "@here") (lower (message_content message)) ->
  user_id (message_author message) ∉ whitelisted w ->
  (forall r w', policy_checks message w = (r, w') ->
     (exists e, link_protection message w = (Raise e, w') /\ r = Raise e)
     \/ (exists dm es, dm_outcome dm /\
           link_protection message w = (Ok tt, extend w (delete_and_warn message dm)) /\
           w' = extend w
             (delete_and_warn message dm
              ++ (MessageDelete (message_id message),
                  platform (journal w ++ delete_and_warn message dm)
                    (MessageDelete (message_id message))) :: es)))
  /\ (forall w', policy_checks message w = (Ok tt, w') ->
        exists dm1 dm2, dm_outcome dm1 /\ dm_outcome dm2 /\
          w' = extend w (delete_and_warn message dm1 ++ timeout_and_warn message dm2))
  /\ ((forall j c, platform j c = None) ->
        policy_checks message w =
          (Ok tt, extend w (delete_and_warn message None
                            ++ timeout_and_warn message None)))
  /\ (user_bot (message_author message) = false ->
      forall w', on_message message w = (Ok tt, w') ->
        exists dm1 dm2, dm_outcome dm1 /\ dm_outcome dm2 /\
          w' = extend w
            (delete_and_warn message dm1 ++ timeout_and_warn message dm2
             ++ [(ProcessCommands (message_id message), None)])).
Proof.
  intros Hl Hm Hw. split; [|split; [|split]].
  - intros r w' H. unfold policy_checks in H.
    destruct (link_protection message w) as [[[]|e] w0] eqn:Hlink.
    + right. destruct (link_protection_Ok _ _ _ Hl Hw Hlink) as (dm & Hdm & ->).
      rewrite (bind_run_Ok _ _ _ _ _ Hlink) in H.
      destruct (mass_mention_protection_first _ (extend w _) _ _ Hm Hw H) as (es & ->).
      exists dm, es. split; [done|]. split; [done|]. by rewrite extend_extend.
    + left. rewrite (bind_run_Raise _ _ _ _ _ Hlink) in H. injection H as <- <-. eauto.
  - intros w' H. unfold policy_checks in H. peel.
    apply link_protection_Ok in H as (dm1 & Hdm1 & ->); [|done..].
    apply mass_mention_protection_Ok in H0 as (dm2 & Hdm2 & ->); [|done..].
    exists dm1, dm2. split; [done|]. split; [done|]. by rewrite extend_extend.
  - intros Hp. unfold policy_checks.
    rewrite (bind_run_Ok _ _ _ _ _ (link_protection_accepted _ _ Hl Hw Hp)).
    rewrite mass_mention_protection_accepted by done. by rewrite extend_extend.
  - intros Hb w'. rewrite on_message_human by done. intros H. peel.
    apply link_protection_Ok in H as (dm1 & Hdm1 & ->); [|done..].
    apply mass_mention_protection_Ok in H0 as (dm2 & Hdm2 & ->); [|done..].
    exists dm1, dm2. split; [done|]. split; [done|].
    rewrite !extend_extend. by rewrite <- ?app_assoc.
Qed.

(** ** The security events *)

Lemma audit_logs_newest (guild : Guild) (a : AuditLogAction) :
  audit_logs guild a 1 =
    match newest guild a with Some entry => [entry] | None => [] end.
Proof.
  unfold audit_logs, newest.
  by destruct (filter _ (guild_audit_log guild)).
Qed.

Lemma orderly_handle (ev : StructuralEvent) : orderly (handle ev).
Proof.
  destruct ev; simpl.
  - apply orderly_on_guild_channel_create.
  - apply orderly_on_guild_role_create.
  - apply orderly_on_member_ban.
Qed.

Lemma handle_no_entry (ev : StructuralEvent) (w : World) :
  newest (event_guild ev) (event_action ev) = None -> handle ev w = (Ok tt, w).
Proof.
  intros Hn. destruct ev; simpl in *;
    unfold on_guild_channel_create, on_guild_role_create, on_member_ban;
    by rewrite audit_logs_newest, Hn.
Qed.

Lemma handle_allowed (ev : StructuralEvent) (entry : AuditLogEntry) (w : World) :
  newest (event_guild ev) (event_action ev) = Some entry ->
  user_id (entry_user entry) ∈ whitelisted w ->
  handle ev w = (Ok tt, w).
Proof.
  intros Hn Hw. destruct ev; simpl in *;
    unfold on_guild_channel_create, on_guild_role_create, on_member_ban;
    rewrite audit_logs_newest, Hn; cbn [for_each];
    unfold mbind, M_bind, get_whitelisted; cbv beta;
    by rewrite (bool_decide_eq_true_2 _ Hw).
Qed.

Lemma handle_denied (ev : StructuralEvent) (entry : AuditLogEntry) (w w' : World) :
  newest (event_guild ev) (event_action ev) = Some entry ->
  user_id (entry_user entry) ∉ whitelisted w ->
  handle ev w = (Ok tt, w') ->
  w' = extend w (revert_and_ban ev (entry_user entry)).
Proof.
  intros Hn Hw. destruct ev; simpl in *;
    unfold on_guild_channel_create, on_guild_role_create, on_member_ban;
    rewrite audit_logs_newest, Hn; cbn [for_each];
    intros H; peel;
    rewrite (bool_decide_eq_false_2 _ Hw) in *; cbn [negb] in *;
    peel; by rewrite !extend_extend.
Qed.

(** C3. For a channel creation, a role creation or a ban, with the actor
    taken from the newest audit-log entry of that action: an actor outside
    the allow-list is answered by reverting and banning (the channel or role
    is deleted, or for a ban nothing is reverted; the actor is banned; the
    action is logged), which is what the journal holds whenever the handler
    runs to its end, and it does so when the platform accepts the calls; an
    allow-listed actor is answered by nothing; and when the audit log has no
    such entry the handler returns at once, with no call and no exception. *)
Theorem structural_change_verdict (ev : StructuralEvent) (w : World) :
  (forall entry, newest (event_guild ev) (event_action ev) = Some entry ->
     (user_id (entry_user entry) ∉ whitelisted w ->
        (forall w', handle ev w = (Ok tt, w') ->
           w' = extend w (revert_and_ban ev (entry_user entry)))
        /\ ((forall j c, platform j c = None) ->
              handle ev w = (Ok tt, extend w (revert_and_ban ev (entry_user entry)))))
     /\ (user_id (entry_user entry) ∈ whitelisted w -> handle ev w = (Ok tt, w)))
  /\ (newest (event_guild ev) (event_action ev) = None -> handle ev w = (Ok tt, w)).
Proof.
  split; [|apply handle_no_entry].
  intros entry Hn. split; [|by apply handle_allowed].
  intros Hw. split; [intros w'; by apply handle_denied|].
  intros Hp.
  destruct (orderly_returns (handle ev) w Hp (orderly_handle ev)) as ([] & es & H).
  rewrite H. f_equal. by apply (handle_denied ev entry).
Qed.

(** C7. A ban whose newest audit-log entry names an actor outside the
    allow-list.  Every call the handler issues is the ban of that actor or
    the embed in the log channel: there is no unban and no other moderation
    call, so whoever was banned before stays banned, the target of the
    original ban included.  When the handler runs to its end the platform's
    banned set has grown by the actor and by nothing else. *)
Theorem ban_handler_frame (guild : Guild) (user : User) (entry : AuditLogEntry) (w : World) :
  newest guild ban = Some entry ->
  user_id (entry_user entry) ∉ whitelisted w ->
  (forall r w', on_member_ban guild user w = (r, w') ->
     exists es, w' = extend w es
       /\ Forall (fun e =>
            (exists o, e = (GuildBan (guild_id guild) (user_id (entry_user entry))
                              (lit "Unauthorized ban attempt"), o))
            \/ (exists channel text o, e = (ChannelSendEmbed channel text, o))) es
       /\ (forall banned, user_id user ∈ banned -> user_id user ∈ banned_after es banned))
  /\ (forall w', on_member_ban guild user w = (Ok tt, w') ->
        w' = extend w
          ([(GuildBan (guild_id guild) (user_id (entry_user entry))
               (lit "Unauthorized ban attempt"), None)]
           ++ logged guild (ban_log (entry_user entry) user))
        /\ forall banned,
             banned_after
               ([(GuildBan (guild_id guild) (user_id (entry_user entry))
                    (lit "Unauthorized ban attempt"), None)]
                ++ logged guild (ban_log (entry_user entry) user)) banned
             = {[ user_id (entry_user entry) ]} ∪ banned).
Proof.
  intros Hn Hw. split.
  - intros r w'. unfold on_member_ban.
    rewrite audit_logs_newest, Hn. cbn [for_each].
    unfold mbind at 1 2, M_bind at 1 2, get_whitelisted. cbv beta.
    rewrite (bool_decide_eq_false_2 _ Hw). cbn [negb].
    unfold mbind, M_bind, call, log_action.
    destruct (platform (journal w) _) as [e|] eqn:Hban.
    + intros [= <- <-]. eexists. split; [done|]. split.
      * apply Forall_singleton. left. eauto.
      * intros banned Hb. done.
    + destruct (get_channel guild LOG_CHANNEL_ID) as [c|].
      * unfold call, mret, M_ret.
        match goal with
        | |- context [platform ?j (ChannelSendEmbed ?ch ?t)] =>
            destruct (platform j (ChannelSendEmbed ch t)) as [e|]
        end;
          intros [= <- <-]; rewrite extend_extend;
          (eexists; split; [done|]); cbn [app]; (split;
            [ apply Forall_cons; split;
              [left; eauto | apply Forall_singleton; right; eauto]
            | intros banned Hb; cbn; apply elem_of_union; by right ]).
      * unfold mret, M_ret. intros [= <- <-]. eexists. split; [done|]. split.
        -- apply Forall_singleton. left. eauto.
        -- intros banned Hb. cbn. apply elem_of_union. by right.
  - intros w' H. split.
    + by apply (handle_denied (MemberBanned guild user) entry).
    + intros banned. unfold logged. by destruct (get_channel guild LOG_CHANNEL_ID).
Qed.

(** ** Forwarding and failures *)

Lemma orderly_policy_checks (message : Message) : orderly (policy_checks message).
Proof.
  apply orderly_bind; [apply orderly_link_protection | intros _].
  apply orderly_mass_mention_protection.
Qed.

Lemma orderly_keeps {A : Type} (m : M A) (w : World) :
  orderly m -> whitelisted (snd (m w)) = whitelisted w.
Proof.
  intros Hm. destruct (m w) as [r w'] eqn:H.
  by destruct (Hm _ _ _ H) as (es & -> & _).
Qed.

(** C9, as the program has it.  [on_message] ignores exactly the messages
    whose author carries the bot flag, its own account or any other automated
    one: for them it issues no call.  Any other message goes through both
    rules and is then handed to command processing, whatever the rules
    decided, provided they ran to their end; when a rule raises, the handler
    stops there and the message is not handed over.  With a platform that
    accepts every call the hand-over is the last entry of the journal. *)
Theorem on_message_forwarding (message : Message) (w : World) :
  (user_bot (message_author message) = true -> on_message message w = (Ok tt, w))
  /\ (user_bot (message_author message) = false ->
        on_message message w =
          match policy_checks message w with
          | (Ok _, w1) => call (ProcessCommands (message_id message)) w1
          | (Raise e, w1) => (Raise e, w1)
          end)
  /\ (user_bot (message_author message) = false ->
      (forall j c, platform j c = None) ->
        exists es, on_message message w =
          (Ok tt, extend w (es ++ [(ProcessCommands (message_id message), None)]))).
Proof.
  assert (Hsplit : user_bot (message_author message) = false ->
            on_message message w =
              match policy_checks message w with
              | (Ok _, w1) => call (ProcessCommands (message_id message)) w1
              | (Raise e, w1) => (Raise e, w1)
              end).
  { intros Hb. rewrite on_message_human by done.
    unfold policy_checks, mbind, M_bind.
    destruct (link_protection message w) as [[[]|e] w0]; [|done].
    by destruct (mass_mention_protection message w0) as [[[]|e] w1]. }
  split; [|split]; [|done|].
  - intros Hb. unfold on_message. by rewrite Hb.
  - intros Hb Hp. rewrite Hsplit by done.
    destruct (orderly_returns (policy_checks message) w Hp
                (orderly_policy_checks message)) as ([] & es & ->).
    exists es. unfold call. rewrite Hp. by rewrite extend_extend.
Qed.

(** C5, as the program has it.  Of the failures of a library call, one is
    absorbed: a direct message refused with Forbidden, after which [send_dm]
    returns and the handler goes on.  A guild without the log channel makes
    [log_action] do nothing.  Any other failure ends the handler at the call
    that failed: in every run of an event handler the entries journalled are
    the platform's answers, all harmless up to the last, and the run raises
    exactly when the last entry is a call that raised that exception; nothing
    is issued after it, and [whitelisted] is as it was. *)
Theorem failure_semantics :
  (forall user message w,
     platform (journal w) (UserSend (user_id user) (alert message)) = Some Forbidden ->
     send_dm user message w =
       (Ok tt, extend w [(UserSend (user_id user) (alert message), Some Forbidden)]))
  /\ (forall guild message w,
        get_channel guild LOG_CHANNEL_ID = None ->
        log_action guild message w = (Ok tt, w))
  /\ (forall message w r w', on_message message w = (r, w') ->
        exists es, w' = extend w es /\ answered (journal w) es /\
          match r with
          | Ok _ => Forall harmless es
          | Raise e =>
              exists es0 c, es = es0 ++ [(c, Some e)] /\ Forall harmless es0
                /\ ~ harmless (c, Some e)
          end)
  /\ (forall ev w r w', handle ev w = (r, w') ->
        exists es, w' = extend w es /\ answered (journal w) es /\
          match r with
          | Ok _ => Forall harmless es
          | Raise e =>
              exists es0 c, es = es0 ++ [(c, Some e)] /\ Forall harmless es0
                /\ ~ harmless (c, Some e)
          end).
Proof.
  split; [|split; [|split]].
  - intros user message w Hp. unfold send_dm, try_except, call. by rewrite Hp.
  - intros guild message w Hc. unfold log_action. by rewrite Hc.
  - intros message w r w' H.
    destruct (orderly_on_message message _ _ _ H) as (es & ? & ? & Hs).
    exists es. by destruct r.
  - intros ev w r w' H.
    destruct (orderly_handle ev _ _ _ H) as (es & ? & ? & Hs).
    exists es. by destruct r.
Qed.

(** ** The allow-list *)

Lemma whitelist_state (ctx : Context) (member : User) (w : World) :
  whitelisted (snd (whitelist ctx member w)) =
    if is_owner (ctx_author ctx) then {[ user_id member ]} ∪ whitelisted w
    else whitelisted w.
Proof.
  unfold whitelist, owner_only. destruct (is_owner _); [|done].
  unfold mbind at 1 2, M_bind at 1 2, get_whitelisted, set_whitelisted. cbv beta iota.
  rewrite orderly_keeps; [done|]. repeat orderly_step.
Qed.

Lemma unwhitelist_state (ctx : Context) (member : User) (w : World) :
  whitelisted (snd (unwhitelist ctx member w)) =
    if is_owner (ctx_author ctx) then whitelisted w ∖ {[ user_id member ]}
    else whitelisted w.
Proof.
  unfold unwhitelist, owner_only. destruct (is_owner _); [|done].
  unfold mbind at 1 2, M_bind at 1 2, get_whitelisted, set_whitelisted. cbv beta iota.
  rewrite orderly_keeps; [done|]. repeat orderly_step.
Qed.

Lemma on_command_error_keeps (ctx : Context) (error : CommandError) (w : World) :
  whitelisted (snd (on_command_error ctx error w)) = whitelisted w.
Proof.
  destruct error as [| | |text]; cbn [on_command_error];
    [apply orderly_keeps; repeat orderly_step ..|].
  unfold mbind, M_bind, raise.
  destruct (log_action _ _ w) as [[[]|e] w1] eqn:H; simpl;
    by destruct (orderly_log_action _ _ _ _ _ H) as (es & -> & _).
Qed.

(** C6, as the program has it.  The configured owner is in the allow-list at
    start-up.  [whitelist] keeps it there, and so does [unwhitelist] of
    anyone else.  The three security handlers, the two message rules that
    [on_message] applies before it hands a message to command processing,
    and the command error handler never change the allow-list; nothing is
    said here of [on_message] past that hand-over, where the commands run.
    And [unwhitelist] of the owner, run by someone who passes the owner
    check, takes the owner out. *)
Theorem owner_membership :
  OWNER_ID ∈ whitelisted initial_world
  /\ (forall ctx member w,
        OWNER_ID ∈ whitelisted w ->
        OWNER_ID ∈ whitelisted (snd (whitelist ctx member w)))
  /\ (forall ctx member w,
        OWNER_ID ∈ whitelisted w -> user_id member <> OWNER_ID ->
        OWNER_ID ∈ whitelisted (snd (unwhitelist ctx member w)))
  /\ (forall message w, whitelisted (snd (policy_checks message w)) = whitelisted w)
  /\ (forall ev w, whitelisted (snd (handle ev w)) = whitelisted w)
  /\ (forall ctx error w,
        whitelisted (snd (on_command_error ctx error w)) = whitelisted w)
  /\ (forall ctx member w,
        is_owner (ctx_author ctx) = true -> user_id member = OWNER_ID ->
        OWNER_ID ∉ whitelisted (snd (unwhitelist ctx member w))).
Proof.
  repeat split.
  - unfold initial_world, initial_whitelisted. simpl. set_solver.
  - intros ctx member w Hin. rewrite whitelist_state.
    destruct (is_owner _); set_solver.
  - intros ctx member w Hin Hne. rewrite unwhitelist_state.
    destruct (is_owner _); set_solver.
  - intros message w. apply orderly_keeps, orderly_policy_checks.
  - intros ev w. apply orderly_keeps, orderly_handle.
  - apply on_command_error_keeps.
  - intros ctx member w Ho Hm. rewrite unwhitelist_state, Ho, Hm.
    apply not_elem_of_difference. right. by apply elem_of_singleton.
Qed.

(** C8. Run by someone who passes the owner check: after [whitelist] of a
    member the member is in the allow-list, whatever the platform did with
    the acknowledgement and the log; after [unwhitelist] of that member it is
    not.  [unwhitelist] of a member that is not in the allow-list leaves the
    allow-list as it was and raises nothing of its own: with a platform that
    accepts the acknowledgement and the log it returns. *)
Theorem whitelist_then_unwhitelist (ctx ctx' : Context) (member : User) (w : World) :
  is_owner (ctx_author ctx) = true ->
  is_owner (ctx_author ctx') = true ->
  user_id member ∈ whitelisted (snd (whitelist ctx member w))
  /\ (user_id member ∉
       whitelisted (snd (unwhitelist ctx' member (snd (whitelist ctx member w)))))
  /\ (user_id member ∉ whitelisted w ->
        whitelisted (snd (unwhitelist ctx' member w)) = whitelisted w
        /\ ((forall j c, platform j c = None) ->
              fst (unwhitelist ctx' member w) = Ok tt)).
Proof.
  intros Ho Ho'. split; [|split].
  - rewrite whitelist_state, Ho. apply elem_of_union_l. by apply elem_of_singleton.
  - rewrite unwhitelist_state, Ho'.
    apply not_elem_of_difference. right. by apply elem_of_singleton.
  - intros Hw. split.
    + rewrite unwhitelist_state, Ho'.
      by apply difference_disjoint_L, disjoint_singleton_r.
    + intros Hp. unfold unwhitelist, owner_only. rewrite Ho'.
      unfold mbind at 1 2, M_bind at 1 2, get_whitelisted, set_whitelisted.
      cbv beta iota.
      match goal with
      | |- fst (?m ?w0) = _ =>
          destruct (orderly_returns m w0 Hp) as ([] & es & ->); [|done]
      end.
      repeat orderly_step.
Qed.

(** ** Who gets banned *)

Lemma extend_inv (w : World) (es es' : list (Call * option Exn)) :
  extend w es = extend w es' -> es = es'.
Proof. unfold extend. intros [= H]. by apply app_inv_head in H. Qed.

Lemma extend_id_inv (w : World) (es : list (Call * option Exn)) :
  w = extend w es -> es = [].
Proof. rewrite <- (extend_nil w) at 1. intros H. symmetry. by apply extend_inv in H. Qed.

Lemma banned_revert_and_ban (ev : StructuralEvent) (actor : User) :
  banned_principals (revert_and_ban ev actor) = [user_id actor].
Proof.
  destruct ev; unfold revert_and_ban, logged, banned_principals;
    by destruct (get_channel _ LOG_CHANNEL_ID).
Qed.

Lemma handle_bans (ev : StructuralEvent) (w : World) (es : list (Call * option Exn)) :
  handle ev w = (Ok tt, extend w es) ->
  banned_principals es =
    match newest (event_guild ev) (event_action ev) with
    | Some entry =>
        if bool_decide (user_id (entry_user entry) ∈ whitelisted w) then []
        else [user_id (entry_user entry)]
    | None => []
    end.
Proof.
  intros H. destruct (newest _ _) as [entry|] eqn:Hn.
  - case_bool_decide as Hw.
    + rewrite (handle_allowed ev entry w Hn Hw) in H. injection H as H.
      by rewrite (extend_id_inv _ _ H).
    + apply (handle_denied ev entry) in H; [|done..].
      apply extend_inv in H as ->. apply banned_revert_and_ban.
  - rewrite (handle_no_entry ev w Hn) in H. injection H as H.
    by rewrite (extend_id_inv _ _ H).
Qed.

(** ** Confined computations *)

Lemma confined_ret {A : Type} (wl : gset Z) (allowed : Call -> Prop) (a : A) :
  confined_at wl allowed (mret a).
Proof.
  intros w r w' _ [= <- <-]. exists []. by rewrite extend_nil.
Qed.

Lemma confined_get {A : Type} (wl : gset Z) (allowed : Call -> Prop)
    (k : gset Z -> M A) :
  confined_at wl allowed (k wl) -> confined_at wl allowed (get_whitelisted ≫= k).
Proof.
  intros Hk w r w' Hwl H. unfold mbind, M_bind, get_whitelisted in H.
  rewrite Hwl in H. exact (Hk _ _ _ Hwl H).
Qed.

Lemma confined_bind {A B : Type} (wl : gset Z) (allowed : Call -> Prop)
    (m : M A) (k : A -> M B) :
  confined_at wl allowed m -> (forall a, confined_at wl allowed (k a)) ->
  confined_at wl allowed (m ≫= k).
Proof.
  intros Hm Hk w r w' Hwl H. unfold mbind, M_bind in H.
  destruct (m w) as [[a|e] w1] eqn:Hmw.
  - destruct (Hm _ _ _ Hwl Hmw) as (es1 & -> & H1).
    destruct (Hk a (extend w es1) _ _ Hwl H) as (es2 & -> & H2).
    exists (es1 ++ es2). rewrite extend_extend. split; [done|]. by apply Forall_app.
  - injection H as <- <-. exact (Hm _ _ _ Hwl Hmw).
Qed.

Lemma confined_call (wl : gset Z) (allowed : Call -> Prop) (c : Call) :
  allowed c -> confined_at wl allowed (call c).
Proof.
  intros Hc w r w' _ H. unfold call in H. injection H as <- <-.
  eexists. split; [done|]. by apply Forall_singleton.
Qed.

Lemma confined_send_dm (wl : gset Z) (allowed : Call -> Prop)
    (user : User) (message : str) :
  allowed (UserSend (user_id user) (alert message)) ->
  confined_at wl allowed (send_dm user message).
Proof.
  intros Hc w r w' _ H. unfold send_dm, try_except, call in H.
  exists [(UserSend (user_id user) (alert message),
           platform (journal w) (UserSend (user_id user) (alert message)))].
  split; [|by apply Forall_singleton].
  destruct (platform (journal w) _) as [e|]; [destruct (is_Forbidden e)|];
    by injection H as <- <-.
Qed.

Lemma get_channel_Some (guild : Guild) (id c : Z) :
  get_channel guild id = Some c -> c = id /\ id ∈ guild_channels guild.
Proof.
  unfold get_channel. case_bool_decide; [|done]. by intros [= <-].
Qed.

Lemma confined_log_action (wl : gset Z) (allowed : Call -> Prop)
    (guild : Guild) (message : str) :
  allowed (ChannelSendEmbed LOG_CHANNEL_ID message) ->
  confined_at wl allowed (log_action guild message).
Proof.
  intros Hc. unfold log_action.
  destruct (get_channel guild LOG_CHANNEL_ID) as [c|] eqn:Hg.
  - apply get_channel_Some in Hg as [-> _]. by apply confined_call.
  - apply confined_ret.
Qed.

Ltac confined_step :=
  first
    [ apply confined_ret
    | apply confined_get
    | apply confined_bind; [|intros ?]
    | apply confined_send_dm
    | apply confined_log_action
    | apply confined_call ].

Lemma confined_raise {A : Type} (wl : gset Z) (allowed : Call -> Prop) (e : Exn) :
  confined_at wl allowed (raise e : M A).
Proof.
  intros w r w' _ [= <- <-]. exists []. by rewrite extend_nil.
Qed.

(** ** What the handlers touch *)

(** X2. [send_dm] issues exactly one call, the send to that user of the
    message under the alert header.  It returns when the send went through
    or was refused with Forbidden, and raises whatever else the send
    raised. *)
Theorem send_dm_outcome (user : User) (message : str) (w : World) :
  send_dm user message w =
    (match platform (journal w) (UserSend (user_id user) (alert message)) with
     | None | Some Forbidden => Ok tt
     | Some e => Raise e
     end,
     extend w [(UserSend (user_id user) (alert message),
                platform (journal w) (UserSend (user_id user) (alert message)))]).
Proof.
  unfold send_dm, try_except, call.
  by destruct (platform (journal w) _) as [[]|].
Qed.

(** X3. Whatever [on_message] does, it does to the message at hand and to
    its author: it deletes no other message, writes to and times out no other
    user, for 600 seconds only, sends embeds to the log channel only, hands
    over that message only, and issues no ban and no deletion of a channel or
    role.  And it deletes, warns, times out and logs only when the author is
    outside the allow-list. *)
Theorem on_message_frame (message : Message) (w w' : World) (r : Result unit) :
  on_message message w = (r, w') ->
  exists es, w' = extend w es /\
    Forall (fun e =>
      match fst e with
      | ProcessCommands m => m = message_id message
      | MessageDelete m =>
          m = message_id message
          /\ user_id (message_author message) ∉ whitelisted w
      | UserSend u _ =>
          u = user_id (message_author message)
          /\ user_id (message_author message) ∉ whitelisted w
      | MemberTimeout u seconds _ =>
          u = user_id (message_author message) /\ seconds = 600
          /\ user_id (message_author message) ∉ whitelisted w
      | ChannelSendEmbed c _ =>
          c = LOG_CHANNEL_ID
          /\ user_id (message_author message) ∉ whitelisted w
      | _ => False
      end) es.
Proof.
  intros H.
  match goal with
  | |- exists es, _ /\ Forall ?P es =>
      assert (Hc : confined_at (whitelisted w)
                     (fun c => P (c, @None Exn)) (on_message message))
  end.
  { unfold on_message. destruct (user_bot _); [apply confined_ret|].
    apply confined_bind; [|intros _; apply confined_bind; [|intros _]].
    - unfold link_protection. apply confined_get.
      destruct (search _ _); cbn [andb]; [|apply confined_ret].
      case_bool_decide as Hw; cbn [negb]; [apply confined_ret|].
      repeat confined_step; cbn; auto.
    - unfold mass_mention_protection. apply confined_get.
      destruct (existsb _ _); cbn [andb]; [|apply confined_ret].
      case_bool_decide as Hw; cbn [negb]; [apply confined_ret|].
      repeat confined_step; cbn; auto.
    - by apply confined_call. }
  exact (Hc _ _ _ eq_refl H).
Qed.

(** X4. Whatever a security handler does, it does because the newest
    audit-log entry of its action names a user outside the allow-list, and it
    does it to that user and to the object of the event: the only deletion
    is of the channel or role just created, the only ban is of that user, the
    only embed goes to the log channel; nobody is written to or timed out.
    Otherwise it issues no call. *)
Theorem security_frame (ev : StructuralEvent) (w w' : World) (r : Result unit) :
  handle ev w = (r, w') ->
  exists es, w' = extend w es /\
    (es = [] \/
     exists entry,
       newest (event_guild ev) (event_action ev) = Some entry
       /\ (user_id (entry_user entry) ∉ whitelisted w)
       /\ Forall (fun e =>
            match fst e, ev with
            | ChannelDelete c, ChannelCreated channel => c = channel_id channel
            | RoleDelete ro, RoleCreated role => ro = role_id role
            | MemberBan u _, (ChannelCreated _ | RoleCreated _) =>
                u = user_id (entry_user entry)
            | GuildBan g u _, MemberBanned guild _ =>
                g = guild_id guild /\ u = user_id (entry_user entry)
            | ChannelSendEmbed c _, _ => c = LOG_CHANNEL_ID
            | _, _ => False
            end) es).
Proof.
  intros H. destruct (newest (event_guild ev) (event_action ev)) as [entry|] eqn:Hn.
  - destruct (decide (user_id (entry_user entry) ∈ whitelisted w)) as [Hw|Hw].
    + rewrite (handle_allowed ev entry w Hn Hw) in H. injection H as <- <-.
      exists []. rewrite extend_nil. auto.
    + assert (Hc : confined_at (whitelisted w)
                (fun c =>
                   match c, ev with
                   | ChannelDelete c, ChannelCreated channel => c = channel_id channel
                   | RoleDelete ro, RoleCreated role => ro = role_id role
                   | MemberBan u _, (ChannelCreated _ | RoleCreated _) =>
                       u = user_id (entry_user entry)
                   | GuildBan g u _, MemberBanned guild _ =>
                       g = guild_id guild /\ u = user_id (entry_user entry)
                   | ChannelSendEmbed c _, _ => c = LOG_CHANNEL_ID
                   | _, _ => False
                   end) (handle ev)).
      { destruct ev; cbn [handle event_guild event_action] in *;
          unfold on_guild_channel_create, on_guild_role_create, on_member_ban;
          rewrite audit_logs_newest, Hn; cbn [for_each];
          (apply confined_bind; [|intros _; apply confined_ret]);
          apply confined_get; rewrite (bool_decide_eq_false_2 _ Hw); cbn [negb];
          repeat confined_step; cbn; auto. }
      destruct (Hc _ _ _ eq_refl H) as (es & -> & Hes).
      exists es. split; [done|]. right. exists entry. split; [done|]. split; [done|].
      exact Hes.
  - rewrite (handle_no_entry ev w Hn) in H. injection H as <- <-.
    exists []. rewrite extend_nil. auto.
Qed.

(** X5. The two commands and the command error handler never moderate:
    every call they issue is a reply in the channel the command came from or
    an embed in the log channel. *)
Theorem commands_frame (ctx : Context) (member : User) (error : CommandError)
    (w w' : World) (r : Result unit) :
  whitelist ctx member w = (r, w')
  \/ unwhitelist ctx member w = (r, w')
  \/ on_command_error ctx error w = (r, w') ->
  exists es, journal w' = journal w ++ es /\
    Forall (fun e =>
      match fst e with
      | ChannelSend c _ => c = ctx_channel ctx
      | ChannelSendEmbed c _ => c = LOG_CHANNEL_ID
      | _ => False
      end) es.
Proof.
  set (allowed := fun c => match c with
                           | ChannelSend c _ => c = ctx_channel ctx
                           | ChannelSendEmbed c _ => c = LOG_CHANNEL_ID
                           | _ => False
                           end).
  assert (Hbody : forall (s : gset Z) (c : Call) (text : str) r w',
            allowed c ->
            (call c;; log_action (ctx_guild ctx) text)
              {| whitelisted := s; journal := journal w |} = (r, w') ->
            exists es, journal w' = journal w ++ es
                       /\ Forall (fun e => allowed (fst e)) es).
  { intros s c text r0 w0 Hc H.
    assert (Hconf : confined_at s allowed (call c;; log_action (ctx_guild ctx) text))
      by (repeat confined_step; done).
    destruct (Hconf {| whitelisted := s; journal := journal w |} _ _ eq_refl H)
      as (es & -> & Hes).
    by exists es. }
  intros [H | [H | H]].
  - unfold whitelist, owner_only in H. destruct (is_owner _).
    + unfold mbind at 1 2, M_bind at 1 2, get_whitelisted, set_whitelisted in H.
      cbv beta iota in H. by apply Hbody in H.
    + injection H as <- <-. exists []. by rewrite app_nil_r.
  - unfold unwhitelist, owner_only in H. destruct (is_owner _).
    + unfold mbind at 1 2, M_bind at 1 2, get_whitelisted, set_whitelisted in H.
      cbv beta iota in H. by apply Hbody in H.
    + injection H as <- <-. exists []. by rewrite app_nil_r.
  - assert (Hconf : confined_at (whitelisted w) allowed (on_command_error ctx error)).
    { destruct error; cbn [on_command_error]; repeat confined_step; try done.
      apply confined_raise. }
    destruct (Hconf _ _ _ eq_refl H) as (es & -> & Hes). by exists es.
Qed.

Lemma link_protection_idle (message : Message) (w : World) :
  ~ contains_link (message_content message) ->
  link_protection message w = (Ok tt, w).
Proof.
  intros Hl. unfold link_protection, mbind, M_bind, get_whitelisted.
  destruct (search _ _) eqn:Hs; [|done].
  by apply contains_link_search in Hs.
Qed.

Lemma mass_mention_protection_idle (message : Message) (w : World) :
  ~ contains (lit "@everyone") (lower (message_content message)) ->
  ~ contains (lit "@here") (lower (message_content message)) ->
  mass_mention_protection message w = (Ok tt, w).
Proof.
  intros He Hh. unfold mass_mention_protection, mbind, M_bind, get_whitelisted.
  destruct (existsb _ _) eqn:Hs; [|done].
  apply mention_test in Hs. tauto.
Qed.

(** X6. A message from a human author that neither rule applies to, because
    the author is allow-listed or because the body has no link and no mass
    mention, is handed to command processing and nothing else happens. *)
Theorem on_message_quiet (message : Message) (w : World) :
  user_bot (message_author message) = false ->
  user_id (message_author message) ∈ whitelisted w
  \/ (~ contains_link (message_content message)
      /\ ~ contains (lit "@everyone") (lower (message_content message))
      /\ ~ contains (lit "@here") (lower (message_content message))) ->
  on_message message w = call (ProcessCommands (message_id message)) w.
Proof.
  intros Hb Hq. rewrite on_message_human by done.
  assert (H1 : link_protection message w = (Ok tt, w)).
  { destruct Hq as [Hw | (Hl & _)];
      [by apply link_protection_skips | by apply link_protection_idle]. }
  assert (H2 : mass_mention_protection message w = (Ok tt, w)).
  { destruct Hq as [Hw | (_ & He & Hh)];
      [by apply mass_mention_protection_skips | by apply mass_mention_protection_idle]. }
  rewrite (bind_run_Ok _ _ _ _ _ H1). by rewrite (bind_run_Ok _ _ _ _ _ H2).
Qed.

(** X7. The two rules each delete the message.  So where the platform
    refuses to delete a message that a delete already went through for, a
    message with both a link and a mass mention, from a human author outside
    the allow-list, always ends [on_message] in an exception, and neither the
    timeout nor the hand-over to command processing is ever issued. *)
Theorem second_delete_refused (message : Message) (w : World) :
  (forall j m, (MessageDelete m, None) ∈ j -> platform j (MessageDelete m) <> None) ->
  user_bot (message_author message) = false ->
  contains_link (message_content message) ->
  contains (lit "@everyone") (lower (message_content message))
  \/ contains (lit "@here") (lower (message_content message)) ->
  user_id (message_author message) ∉ whitelisted w ->
  exists e es,
    on_message message w = (Raise e, extend w es)
    /\ Forall (fun x =>
         match fst x with
         | MemberTimeout _ _ _ | ProcessCommands _ => False
         | _ => True
         end) es.
Proof.
  intros Hp Hb Hl Hm Hw. rewrite on_message_human by done.
  destruct (link_protection message w) as [[[]|e] w0] eqn:Hlink.
  - destruct (link_protection_Ok _ _ _ Hl Hw Hlink) as (dm & Hdm & ->).
    rewrite (bind_run_Ok _ _ _ _ _ Hlink).
    assert (Hin : (MessageDelete (message_id message), None)
                  ∈ journal (extend w (delete_and_warn message dm))).
    { cbn [extend journal]. apply elem_of_app. right.
      unfold delete_and_warn. apply elem_of_app. left. apply elem_of_cons. by left. }
    apply Hp in Hin.
    destruct (platform _ (MessageDelete (message_id message))) as [e|] eqn:He; [|done].
    assert (Hment : mass_mention_protection message (extend w (delete_and_warn message dm))
                    = (Raise e, extend (extend w (delete_and_warn message dm))
                                  [(MessageDelete (message_id message), Some e)])).
    { rewrite mass_mention_protection_fires by done.
      unfold mbind at 1, M_bind at 1, call at 1. by rewrite He. }
    rewrite (bind_run_Raise _ _ _ _ _ Hment).
    eexists e, _. rewrite extend_extend. split; [done|].
    apply Forall_app. split; [|by apply Forall_singleton].
    unfold delete_and_warn, logged.
    destruct (get_channel _ _); by repeat constructor.
  - rewrite (bind_run_Raise _ _ _ _ _ Hlink).
    assert (Hc : confined_at (whitelisted w)
              (fun c => match c with
                        | MemberTimeout _ _ _ | ProcessCommands _ => False
                        | _ => True
                        end) (link_protection message)).
    { unfold link_protection. apply confined_get.
      destruct (_ && _); repeat confined_step; done. }
    destruct (Hc _ _ _ eq_refl Hlink) as (es & -> & Hes).
    by exists e, es.
Qed.

(** X8. The log entry of the link rule quotes the body up to its first 100
    code points and no further: its length is that of the two mentions, of
    the quoted part and of 45 fixed code points, and two messages with the
    same mentions that agree on their first 100 code points are logged with
    the same text. *)
Theorem link_log_quote (m1 m2 : Message) :
  length (link_log m1)
    = (length (user_mention (message_author m1))
       + length (channel_mention (message_channel m1))
       + Nat.min 100 (length (message_content m1)) + 45)%nat
  /\ (user_mention (message_author m1) = user_mention (message_author m2) ->
      channel_mention (message_channel m1) = channel_mention (message_channel m2) ->
      take 100 (message_content m1) = take 100 (message_content m2) ->
      link_log m1 = link_log m2).
Proof.
  split.
  - unfold link_log. rewrite !length_app, length_take. cbn. lia.
  - intros Hu Hc Ht. unfold link_log. by rewrite Hu, Hc, Ht.
Qed.

(** ** More on the allow-list *)

(** X9. [whitelist] and [unwhitelist] of a member change nobody else's
    standing: any other principal is in the allow-list afterwards exactly
    when it was before, whoever runs the command and whatever the platform
    answers. *)
Theorem allow_list_frame (ctx : Context) (member : User) (q : Z) (w : World) :
  q <> user_id member ->
  (q ∈ whitelisted (snd (whitelist ctx member w)) <-> q ∈ whitelisted w)
  /\ (q ∈ whitelisted (snd (unwhitelist ctx member w)) <-> q ∈ whitelisted w).
Proof.
  intros Hq. rewrite whitelist_state, unwhitelist_state.
  destruct (is_owner _); [|done]. split.
  - rewrite elem_of_union, elem_of_singleton. tauto.
  - rewrite elem_of_difference, elem_of_singleton. tauto.
Qed.

(** X10. Run by someone who passes the owner check, the commands compose as
    set operations: [whitelist] then [unwhitelist] of a member leaves the
    allow-list without the member (so it restores the allow-list only if the
    member was not in it), [unwhitelist] then [whitelist] leaves it with the
    member, and doing either command twice is the same as doing it once. *)
Theorem allow_list_round_trips (ctx ctx' : Context) (member : User) (w : World) :
  is_owner (ctx_author ctx) = true ->
  is_owner (ctx_author ctx') = true ->
  whitelisted (snd (unwhitelist ctx' member (snd (whitelist ctx member w))))
    = whitelisted w ∖ {[ user_id member ]}
  /\ whitelisted (snd (whitelist ctx' member (snd (unwhitelist ctx member w))))
    = {[ user_id member ]} ∪ whitelisted w
  /\ whitelisted (snd (whitelist ctx' member (snd (whitelist ctx member w))))
    = whitelisted (snd (whitelist ctx member w))
  /\ whitelisted (snd (unwhitelist ctx' member (snd (unwhitelist ctx member w))))
    = whitelisted (snd (unwhitelist ctx member w)).
Proof.
  intros Ho Ho'.
  rewrite !whitelist_state, !unwhitelist_state, !whitelist_state, Ho, Ho'.
  repeat split; apply set_eq; intros x;
    rewrite ?elem_of_union, ?elem_of_difference, ?elem_of_union,
      ?elem_of_difference, ?elem_of_singleton;
    destruct (decide (x = user_id member)); tauto.
Qed.

(** X11. The allow-list is changed before anything is sent.  When the
    acknowledgement is refused, [whitelist] raises with the member already
    added, and [unwhitelist] with the member already removed, and in both
    cases nothing is written to the log channel. *)
Theorem refused_acknowledgement (ctx : Context) (member : User) (w : World) (e : Exn) :
  is_owner (ctx_author ctx) = true ->
  (platform (journal w)
     (ChannelSend (ctx_channel ctx)
        ([9989%N] ++ lit " " ++ user_mention member ++ lit " has been whitelisted."))
   = Some e ->
   whitelist ctx member w =
     (Raise e,
      {| whitelisted := {[ user_id member ]} ∪ whitelisted w;
         journal := journal w ++
           [(ChannelSend (ctx_channel ctx)
               ([9989%N] ++ lit " " ++ user_mention member
                ++ lit " has been whitelisted."), Some e)] |}))
  /\ (platform (journal w)
        (ChannelSend (ctx_channel ctx)
           ([10060%N] ++ lit " " ++ user_mention member
            ++ lit " has been removed from whitelist."))
      = Some e ->
      unwhitelist ctx member w =
        (Raise e,
         {| whitelisted := whitelisted w ∖ {[ user_id member ]};
            journal := journal w ++
              [(ChannelSend (ctx_channel ctx)
                  ([10060%N] ++ lit " " ++ user_mention member
                   ++ lit " has been removed from whitelist."), Some e)] |})).
Proof.
  intros Ho. split; intros Hp.
  - unfold whitelist, owner_only. rewrite Ho.
    unfold mbind, M_bind, get_whitelisted, set_whitelisted, call.
    cbn [journal]. by rewrite Hp.
  - unfold unwhitelist, owner_only. rewrite Ho.
    unfold mbind, M_bind, get_whitelisted, set_whitelisted, call.
    cbn [journal]. by rewrite Hp.
Qed.

(** X12. Run by someone who does not pass the owner check, [whitelist] and
    [unwhitelist] raise NotOwner with the allow-list and the journal as they
    were; and the error handler answers NotOwner with one reply in the
    channel of the command, nothing in the log channel and no change to the
    allow-list, raising only if that reply does. *)
Theorem not_owner_reply (ctx : Context) (member : User) (w : World) :
  is_owner (ctx_author ctx) = false ->
  whitelist ctx member w = (Raise (CommandErr NotOwner), w)
  /\ unwhitelist ctx member w = (Raise (CommandErr NotOwner), w)
  /\ forall r w', on_command_error ctx NotOwner w = (r, w') ->
       w' = extend w
              [(ChannelSend (ctx_channel ctx)
                  ([128683%N] ++ lit " This command is for bot owners only!"),
                platform (journal w)
                  (ChannelSend (ctx_channel ctx)
                     ([128683%N] ++ lit " This command is for bot owners only!")))]
       /\ (r = Ok tt <->
           platform (journal w)
             (ChannelSend (ctx_channel ctx)
                ([128683%N] ++ lit " This command is for bot owners only!")) = None).
Proof.
  intros Ho. split; [|split].
  - unfold whitelist, owner_only. by rewrite Ho.
  - unfold unwhitelist, owner_only. by rewrite Ho.
  - intros r w'. cbn [on_command_error]. unfold call.
    destruct (platform (journal w) _) as [e|]; intros [= <- <-];
      (split; [done|]); split; congruence.
Qed.

(** X13. For an error that is none of the three it knows, the error handler
    never returns: it raises the error again when the log entry went through
    or the guild has no log channel, and when the send to the log channel
    raises, that exception goes out instead of the error.  The allow-list is
    as it was. *)
Theorem unknown_error_is_raised_again (ctx : Context) (text : str) (w : World) :
  exists e es,
    on_command_error ctx (OtherCommandError text) w = (Raise e, extend w es)
    /\ ((e = CommandErr (OtherCommandError text)
         /\ es = logged (ctx_guild ctx)
                   ([9888%N; 65039%N] ++ lit " Error in command " ++ ctx_command ctx
                    ++ lit ": " ++ text))
        \/ es = [(ChannelSendEmbed LOG_CHANNEL_ID
                    ([9888%N; 65039%N] ++ lit " Error in command " ++ ctx_command ctx
                     ++ lit ": " ++ text), Some e)]).
Proof.
  cbn [on_command_error]. unfold mbind, M_bind, raise, log_action, logged.
  destruct (get_channel (ctx_guild ctx) LOG_CHANNEL_ID) as [c|] eqn:Hg.
  - apply get_channel_Some in Hg as [-> _]. unfold call.
    destruct (platform (journal w) _) as [e|]; eexists _, _; split; eauto.
  - exists (CommandErr (OtherCommandError text)), []. rewrite extend_nil. auto.
Qed.

(** ** Commands and handlers together *)

(** X17. The allow-list is read when an event is handled, so [whitelist]
    takes effect at once: after an owner whitelisted a member, a message of
    that member, whatever its body, is only handed to command processing,
    and a security event whose newest audit-log entry names that member is
    answered by nothing. *)
Theorem whitelisting_exempts (ctx : Context) (member : User) (w : World) :
  is_owner (ctx_author ctx) = true ->
  (forall message,
     user_id (message_author message) = user_id member ->
     user_bot (message_author message) = false ->
     on_message message (snd (whitelist ctx member w))
       = call (ProcessCommands (message_id message)) (snd (whitelist ctx member w)))
  /\ (forall ev entry,
        newest (event_guild ev) (event_action ev) = Some entry ->
        user_id (entry_user entry) = user_id member ->
        handle ev (snd (whitelist ctx member w))
          = (Ok tt, snd (whitelist ctx member w))).
Proof.
  intros Ho.
  assert (Hin : user_id member ∈ whitelisted (snd (whitelist ctx member w))).
  { rewrite whitelist_state, Ho. apply elem_of_union_l. by apply elem_of_singleton. }
  split.
  - intros message Hid Hb. rewrite <- Hid in Hin.
    rewrite on_message_human by done.
    rewrite (bind_run_Ok _ _ _ _ _ (link_protection_skips _ _ Hin)).
    by rewrite (bind_run_Ok _ _ _ _ _ (mass_mention_protection_skips _ _ Hin)).
  - intros ev entry Hn Hid. rewrite <- Hid in Hin. by apply (handle_allowed ev entry).
Qed.

(** X18. And [unwhitelist] takes effect at once, for anyone, the owner
    included: after an owner unwhitelisted a member, a message of that member
    with a link gets its delete issued, and a security event whose newest
    audit-log entry names that member is answered by reverting and banning,
    on a platform that accepts the calls. *)
Theorem unwhitelisting_exposes (ctx : Context) (member : User) (w : World) :
  is_owner (ctx_author ctx) = true ->
  (forall message r w',
     user_id (message_author message) = user_id member ->
     contains_link (message_content message) ->
     link_protection message (snd (unwhitelist ctx member w)) = (r, w') ->
     exists es, w' = extend (snd (unwhitelist ctx member w))
       ((MessageDelete (message_id message),
         platform (journal (snd (unwhitelist ctx member w)))
           (MessageDelete (message_id message))) :: es))
  /\ (forall ev entry,
        newest (event_guild ev) (event_action ev) = Some entry ->
        user_id (entry_user entry) = user_id member ->
        (forall j c, platform j c = None) ->
        handle ev (snd (unwhitelist ctx member w))
          = (Ok tt, extend (snd (unwhitelist ctx member w))
                      (revert_and_ban ev (entry_user entry)))).
Proof.
  intros Ho.
  assert (Hout : user_id member ∉ whitelisted (snd (unwhitelist ctx member w))).
  { rewrite unwhitelist_state, Ho.
    apply not_elem_of_difference. right. by apply elem_of_singleton. }
  split.
  - intros message r w' Hid Hl H. rewrite <- Hid in Hout.
    by apply (link_protection_first message _ w' r).
  - intros ev entry Hn Hid Hp. rewrite <- Hid in Hout.
    destruct (orderly_returns (handle ev) (snd (unwhitelist ctx member w)) Hp
                (orderly_handle ev)) as ([] & es & H).
    rewrite H. f_equal. by apply (handle_denied ev entry).
Qed.

End Bot.

(** C10. Who is banned for a channel creation, a role creation or a ban is
    read off the newest audit-log entry of that action and the allow-list,
    and off nothing else: a handler that runs to its end has banned exactly
    the user that entry names when that user is outside the allow-list, and
    nobody otherwise.  So two runs, on any two events, platforms and log
    channels, that see the same newest entry and the same allow-list ban the
    same principal. *)
Theorem ban_follows_audit_log
    (platform1 platform2 : list (Call * option Exn) -> Call -> option Exn)
    (log1 log2 : Z) (ev1 ev2 : StructuralEvent) (w1 w2 : World)
    (es1 es2 : list (Call * option Exn)) :
  newest (event_guild ev1) (event_action ev1)
    = newest (event_guild ev2) (event_action ev2) ->
  whitelisted w1 = whitelisted w2 ->
  handle platform1 log1 ev1 w1 = (Ok tt, extend w1 es1) ->
  handle platform2 log2 ev2 w2 = (Ok tt, extend w2 es2) ->
  banned_principals es1 =
    match newest (event_guild ev1) (event_action ev1) with
    | Some entry =>
        if bool_decide (user_id (entry_user entry) ∈ whitelisted w1) then []
        else [user_id (entry_user entry)]
    | None => []
    end
  /\ banned_principals es2 = banned_principals es1.
Proof.
  intros Hn Hw H1 H2.
  apply handle_bans in H1. apply handle_bans in H2.
  split; [done|]. by rewrite H1, H2, Hn, Hw.
Qed.

(** ** What triggers the link rule *)

(** X1. [LINK_PATTERN.search] succeeds on exactly the bodies in which
    "http://", "https://" or "www.", spelled in lower case, is followed by a
    character that is not white space; where in the body, and what else the
    body holds, does not matter. *)
Theorem link_trigger (s : list N) :
  search LINK_PATTERN s = true <->
  exists token c,
    (token = lit "http://" \/ token = lit "https://" \/ token = lit "www.")
    /\ isspace c = false /\ contains (token ++ [c]) s.
Proof. rewrite <- contains_link_search. apply contains_link_tokens. Qed.

(** ** Start-up *)

(** X14. [get_env_var] reports a variable as not set exactly when it is
    absent from the environment or set to the empty string, whether an
    integer is asked for or not; and asked for a string, it returns any other
    value as it stands, without trying to read it as an integer. *)
Theorem get_env_var_not_set (environ : gmap string (list N)) (int : list N -> option Z)
    (name : string) (is_int : bool) :
  (Startup.get_env_var environ int name is_int = inl (Startup.NotSet name)
   <-> environ !! name = None \/ environ !! name = Some [])
  /\ (forall value, environ !! name = Some value -> value <> [] ->
        Startup.get_env_var environ int name false = inr (Startup.StrValue value)).
Proof.
  unfold Startup.get_env_var. split.
  - destruct (environ !! name) as [[|c value]|]; [tauto| |tauto].
    split; [|intros [H|H]; discriminate].
    destruct is_int; [destruct (int _)|]; discriminate.
  - intros value -> Hv. by destruct value.
Qed.

Lemma get_env_var_inr (environ : gmap string (list N)) (int : list N -> option Z)
    (name : string) (is_int : bool) (v : Startup.EnvValue) :
  Startup.get_env_var environ int name is_int = inr v <->
  exists value, environ !! name = Some value /\ value <> [] /\
    v = (if is_int
         then match int value with Some n => Startup.IntValue n | None => v end
         else Startup.StrValue value)
    /\ (is_int = true -> int value <> None).
Proof.
  unfold Startup.get_env_var.
  destruct (environ !! name) as [[|c value]|].
  - split; [discriminate | intros (? & [= <-] & ? & _); done].
  - destruct is_int; [destruct (int (c :: value)) as [n|] eqn:Hi|].
    + split.
      * intros [= <-]. exists (c :: value). rewrite Hi. by repeat split.
      * intros (? & [= <-] & _ & -> & _). by rewrite Hi.
    + split; [discriminate|].
      intros (? & [= <-] & _ & _ & H). rewrite Hi in H. by destruct H.
    + split.
      * intros [= <-]. exists (c :: value). by repeat split.
      * by intros (? & [= <-] & _ & -> & _).
  - split; [discriminate | intros (? & [=] & _)].
Qed.

(** X15. The configuration is complete exactly when the three variables are
    set and not empty and the two identifiers read as integers; it then holds
    the token as it stands and the two integers. *)
Theorem configuration_complete (environ : gmap string (list N))
    (int : list N -> option Z) (cfg : Startup.Config) :
  Startup.configuration environ int = inr cfg <->
  exists token owner log n m,
    environ !! "DISCORD_TOKEN"%string = Some token /\ token <> []
    /\ environ !! "OWNER_ID"%string = Some owner /\ owner <> [] /\ int owner = Some n
    /\ environ !! "LOG_CHANNEL_ID"%string = Some log /\ log <> [] /\ int log = Some m
    /\ cfg = {| Startup.TOKEN := Startup.StrValue token;
                Startup.OWNER_ID := Startup.IntValue n;
                Startup.LOG_CHANNEL_ID := Startup.IntValue m |}.
Proof.
  unfold Startup.configuration. split.
  - destruct (Startup.get_env_var environ int "DISCORD_TOKEN" false) as [|t] eqn:Ht;
      [discriminate|].
    destruct (Startup.get_env_var environ int "OWNER_ID" true) as [|o] eqn:Ho;
      [discriminate|].
    destruct (Startup.get_env_var environ int "LOG_CHANNEL_ID" true) as [|l] eqn:Hl;
      [discriminate|].
    intros [= <-].
    apply get_env_var_inr in Ht as (token & Ht & Htn & -> & _).
    apply get_env_var_inr in Ho as (owner & Ho & Hon & Hov & Hoi).
    apply get_env_var_inr in Hl as (log & Hl & Hln & Hlv & Hli).
    destruct (int owner) as [n|] eqn:Hn; [|by destruct Hoi].
    destruct (int log) as [m|] eqn:Hm; [|by destruct Hli].
    subst. exists token, owner, log, n, m. by repeat split.
  - intros (token & owner & log & n & m & Ht & Htn & Ho & Hon & Hn & Hl & Hln & Hm & ->).
    unfold Startup.get_env_var. rewrite Ht, Ho, Hl, Hn, Hm.
    by destruct token, owner, log.
Qed.

(** X16. When start-up fails, the error tells the truth: a variable it
    reports as not set is one of the three and is absent or empty, and a
    value it reports as no integer is the value of one of the two
    identifiers, never the token, and [int] does reject it. *)
Theorem configuration_error (environ : gmap string (list N))
    (int : list N -> option Z) (e : Startup.StartupError) :
  Startup.configuration environ int = inl e ->
  match e with
  | Startup.NotSet name =>
      (name = "DISCORD_TOKEN" \/ name = "OWNER_ID" \/ name = "LOG_CHANNEL_ID")%string
      /\ (environ !! name = None \/ environ !! name = Some [])
  | Startup.InvalidInt value =>
      int value = None
      /\ (environ !! "OWNER_ID"%string = Some value
          \/ environ !! "LOG_CHANNEL_ID"%string = Some value)
  end.
Proof.
  assert (Hone : forall name is_int e,
            Startup.get_env_var environ int name is_int = inl e ->
            match e with
            | Startup.NotSet name' =>
                name' = name /\ (environ !! name = None \/ environ !! name = Some [])
            | Startup.InvalidInt value =>
                is_int = true /\ int value = None /\ environ !! name = Some value
            end).
  { intros name is_int e0. unfold Startup.get_env_var.
    destruct (environ !! name) as [[|c value]|]; try (intros [= <-]; by auto).
    destruct is_int; [destruct (int _) eqn:Hi|]; intros [= <-]. auto. }
  unfold Startup.configuration.
  destruct (Startup.get_env_var environ int "DISCORD_TOKEN" false) as [e1|t] eqn:Ht.
  { intros [= <-]. apply Hone in Ht. destruct e1.
    - destruct Ht as [-> Ht]. auto.
    - by destruct Ht as [[=] _]. }
  destruct (Startup.get_env_var environ int "OWNER_ID" true) as [e2|o] eqn:Ho.
  { intros [= <-]. apply Hone in Ho. destruct e2.
    - destruct Ho as [-> Ho]. auto.
    - destruct Ho as (_ & ? & ?). auto. }
  destruct (Startup.get_env_var environ int "LOG_CHANNEL_ID" true) as [e3|l] eqn:Hl;
    [|discriminate].
  intros [= <-]. apply Hone in Hl. destruct e3.
  - destruct Hl as [-> Hl]. auto.
  - destruct Hl as (_ & ? & ?). auto.
Qed.

(** ** The theorems at work on the samples *)

Example search_finds_www :
  search LINK_PATTERN (lit "check this out www.example.com") = true.
Proof. reflexivity. Qed.

(** A scheme with nothing after it is not a link. *)
Example search_skips_bare_scheme :
  search LINK_PATTERN (lit "see http:// later") = false.
Proof. reflexivity. Qed.

Example mention_any_case :
  existsb (fun mention => str_in mention (ascii_lower (lit "Hello @Everyone")))
    [lit "@everyone"; lit "@here"] = true.
Proof. reflexivity. Qed.

Ltac by_computation :=
  match goal with
  | |- ?P => apply (bool_decide_unpack P); vm_compute; exact I
  end.

(** alice posts a link; every call goes through. *)
Lemma link_rule_verdict_witness :
  contains_link (message_content Sample.advert)
  /\ (user_id (message_author Sample.advert) ∉ whitelisted Sample.fresh)
  /\ link_protection obliging 7 Sample.advert Sample.fresh
       = (Ok tt, extend Sample.fresh (delete_and_warn 7 Sample.advert None))
  /\ exists dm, dm_outcome dm /\
       extend Sample.fresh (delete_and_warn 7 Sample.advert None)
       = extend Sample.fresh
           ([(MessageDelete 55, None); (UserSend 2 (alert link_dm), dm)]
            ++ logged 7 Sample.guild (link_log Sample.advert)).
Proof.
  assert (Hl : contains_link (message_content Sample.advert))
    by (apply contains_link_search; reflexivity).
  assert (Hw : user_id (message_author Sample.advert) ∉ whitelisted Sample.fresh)
    by by_computation.
  assert (Hrun : link_protection obliging 7 Sample.advert Sample.fresh
                 = (Ok tt, extend Sample.fresh (delete_and_warn 7 Sample.advert None)))
    by reflexivity.
  split; [exact Hl|]. split; [exact Hw|]. split; [exact Hrun|].
  destruct (link_rule_verdict obliging ascii_lower 7 Sample.advert Sample.fresh)
    as [H _].
  destruct (H Hl Hw) as (_ & H2 & _ & _). exact (H2 _ Hrun).
Defined.

(** alice shouts at everyone, in mixed case. *)
Lemma mass_mention_rule_verdict_witness :
  (contains (lit "@everyone") (ascii_lower (message_content Sample.shout))
   \/ contains (lit "@here") (ascii_lower (message_content Sample.shout)))
  /\ (user_id (message_author Sample.shout) ∉ whitelisted Sample.fresh)
  /\ mass_mention_protection obliging ascii_lower 7 Sample.shout Sample.fresh
       = (Ok tt, extend Sample.fresh (timeout_and_warn 7 Sample.shout None))
  /\ exists dm, dm_outcome dm /\
       extend Sample.fresh (timeout_and_warn 7 Sample.shout None)
       = extend Sample.fresh
           ([(MessageDelete 56, None);
             (MemberTimeout 2 600 (lit "Mass mention violation"), None);
             (UserSend 2 (alert mention_dm), dm)]
            ++ logged 7 Sample.guild (mention_log Sample.shout)).
Proof.
  assert (Hm : contains (lit "@everyone") (ascii_lower (message_content Sample.shout))
               \/ contains (lit "@here") (ascii_lower (message_content Sample.shout)))
    by (left; apply str_in_spec; reflexivity).
  assert (Hw : user_id (message_author Sample.shout) ∉ whitelisted Sample.fresh)
    by by_computation.
  assert (Hrun : mass_mention_protection obliging ascii_lower 7 Sample.shout Sample.fresh
                 = (Ok tt, extend Sample.fresh (timeout_and_warn 7 Sample.shout None)))
    by reflexivity.
  split; [exact Hm|]. split; [exact Hw|]. split; [exact Hrun|].
  destruct (mass_mention_rule_verdict obliging ascii_lower 7 Sample.shout Sample.fresh)
    as [H _].
  destruct (H Hm Hw) as (_ & H2 & _ & _). exact (H2 _ Hrun).
Defined.

(** alice's channel is reverted and alice banned; a role whose creation the
    audit log does not show yet is left alone. *)
Lemma structural_change_verdict_witness :
  newest (event_guild (ChannelCreated Sample.raid))
         (event_action (ChannelCreated Sample.raid))
    = Some {| entry_action := channel_create; entry_user := Sample.alice |}
  /\ (user_id Sample.alice ∉ whitelisted Sample.fresh)
  /\ (forall j c, obliging j c = None)
  /\ handle obliging 7 (ChannelCreated Sample.raid) Sample.fresh
       = (Ok tt, extend Sample.fresh
                   (revert_and_ban 7 (ChannelCreated Sample.raid) Sample.alice))
  /\ newest (event_guild (RoleCreated Sample.raiders))
            role_create = None
  /\ handle obliging 7 (RoleCreated Sample.raiders) Sample.fresh
       = (Ok tt, Sample.fresh).
Proof.
  assert (Hn : newest (event_guild (ChannelCreated Sample.raid))
                      (event_action (ChannelCreated Sample.raid))
               = Some {| entry_action := channel_create; entry_user := Sample.alice |})
    by reflexivity.
  assert (Hw : user_id Sample.alice ∉ whitelisted Sample.fresh) by by_computation.
  assert (Hp : forall j c, obliging j c = None) by reflexivity.
  split; [exact Hn|]. split; [exact Hw|]. split; [exact Hp|]. split.
  - destruct (structural_change_verdict obliging 7 (ChannelCreated Sample.raid)
                Sample.fresh) as [H _].
    destruct (H _ Hn) as [H1 _]. destruct (H1 Hw) as [_ H2]. exact (H2 Hp).
  - split; [reflexivity|].
    destruct (structural_change_verdict obliging 7
                (RoleCreated Sample.raiders)
                Sample.fresh) as [_ H].
    exact (H eq_refl).
Defined.

(** alice posts a link and a mass mention in one message. *)
Lemma link_then_mention_witness :
  contains_link (message_content Sample.both)
  /\ (contains (lit "@everyone") (ascii_lower (message_content Sample.both))
      \/ contains (lit "@here") (ascii_lower (message_content Sample.both)))
  /\ (user_id (message_author Sample.both) ∉ whitelisted Sample.fresh)
  /\ user_bot (message_author Sample.both) = false
  /\ on_message obliging ascii_lower 7 Sample.both Sample.fresh
       = (Ok tt, extend Sample.fresh
                   (delete_and_warn 7 Sample.both None
                    ++ timeout_and_warn 7 Sample.both None
                    ++ [(ProcessCommands 57, None)]))
  /\ exists dm1 dm2, dm_outcome dm1 /\ dm_outcome dm2 /\
       extend Sample.fresh
         (delete_and_warn 7 Sample.both None ++ timeout_and_warn 7 Sample.both None
          ++ [(ProcessCommands 57, None)])
       = extend Sample.fresh
           (delete_and_warn 7 Sample.both dm1 ++ timeout_and_warn 7 Sample.both dm2
            ++ [(ProcessCommands (message_id Sample.both), None)]).
Proof.
  assert (Hb : user_bot (message_author Sample.both) = false) by reflexivity.
  assert (Hl : contains_link (message_content Sample.both))
    by (apply contains_link_search; reflexivity).
  assert (Hm : contains (lit "@everyone") (ascii_lower (message_content Sample.both))
               \/ contains (lit "@here") (ascii_lower (message_content Sample.both)))
    by (right; apply str_in_spec; reflexivity).
  assert (Hw : user_id (message_author Sample.both) ∉ whitelisted Sample.fresh)
    by by_computation.
  assert (Hrun : on_message obliging ascii_lower 7 Sample.both Sample.fresh
                 = (Ok tt, extend Sample.fresh
                             (delete_and_warn 7 Sample.both None
                              ++ timeout_and_warn 7 Sample.both None
                              ++ [(ProcessCommands 57, None)])))
    by reflexivity.
  split; [exact Hl|]. split; [exact Hm|]. split; [exact Hw|]. split; [exact Hb|].
  split; [exact Hrun|].
  destruct (link_then_mention obliging ascii_lower 7 Sample.both Sample.fresh
              Hl Hm Hw) as (_ & _ & _ & H).
  exact (H Hb _ Hrun).
Defined.

(** A refused direct message and a missing log channel are passed over; a
    refused delete ends the handler. *)
Lemma failure_semantics_witness :
  dm_closed (journal Sample.fresh) (UserSend (user_id Sample.alice) (alert link_dm))
    = Some Forbidden
  /\ send_dm dm_closed Sample.alice link_dm Sample.fresh
       = (Ok tt, extend Sample.fresh
                   [(UserSend (user_id Sample.alice) (alert link_dm), Some Forbidden)])
  /\ get_channel Sample.guild 5 = None
  /\ log_action dm_closed 5 Sample.guild (link_log Sample.advert) Sample.fresh
       = (Ok tt, Sample.fresh)
  /\ on_message no_manage_messages ascii_lower 7 Sample.advert Sample.fresh
       = (Raise Forbidden, extend Sample.fresh [(MessageDelete 55, Some Forbidden)])
  /\ exists es, extend Sample.fresh [(MessageDelete 55, Some Forbidden)]
                 = extend Sample.fresh es
       /\ answered no_manage_messages (journal Sample.fresh) es
       /\ exists es0 c, es = es0 ++ [(c, Some Forbidden)] /\ Forall harmless es0
            /\ ~ harmless (c, Some Forbidden).
Proof.
  assert (Hdm : dm_closed (journal Sample.fresh)
                  (UserSend (user_id Sample.alice) (alert link_dm)) = Some Forbidden)
    by reflexivity.
  assert (Hc : get_channel Sample.guild 5 = None) by reflexivity.
  assert (Hrun : on_message no_manage_messages ascii_lower 7 Sample.advert Sample.fresh
                 = (Raise Forbidden,
                    extend Sample.fresh [(MessageDelete 55, Some Forbidden)]))
    by reflexivity.
  split; [exact Hdm|]. split.
  { destruct (failure_semantics dm_closed ascii_lower 5) as [H _]. exact (H _ _ _ Hdm). }
  split; [exact Hc|]. split.
  { destruct (failure_semantics dm_closed ascii_lower 5) as (_ & H & _).
    exact (H _ _ _ Hc). }
  split; [exact Hrun|].
  destruct (failure_semantics no_manage_messages ascii_lower 7) as (_ & _ & H & _).
  exact (H _ _ _ _ Hrun).
Defined.

(** The owner stays through [whitelist] of alice and [unwhitelist] of bob,
    and goes with [unwhitelist] of the owner. *)
Lemma owner_membership_witness :
  1 ∈ whitelisted (initial_world 1)
  /\ user_id Sample.bob <> 1
  /\ 1 ∈ whitelisted
           (snd (unwhitelist obliging Sample.only_owner 7
                   (Sample.ctx Sample.owner "unwhitelist") Sample.bob (initial_world 1)))
  /\ 1 ∈ whitelisted
           (snd (whitelist obliging Sample.only_owner 7
                   (Sample.ctx Sample.owner "whitelist") Sample.alice (initial_world 1)))
  /\ Sample.only_owner (ctx_author (Sample.ctx Sample.owner "unwhitelist")) = true
  /\ user_id Sample.owner = 1
  /\ 1 ∉ whitelisted
           (snd (unwhitelist obliging Sample.only_owner 7
                   (Sample.ctx Sample.owner "unwhitelist") Sample.owner (initial_world 1))).
Proof.
  destruct (owner_membership obliging ascii_lower Sample.only_owner 1 7)
    as (H0 & Hadd & Hrem & _ & _ & _ & Hown).
  assert (Hne : user_id Sample.bob <> 1) by discriminate.
  split; [exact H0|]. split; [exact Hne|].
  split; [exact (Hrem _ _ _ H0 Hne)|].
  split; [exact (Hadd _ _ _ H0)|].
  split; [reflexivity|]. split; [reflexivity|].
  exact (Hown (Sample.ctx Sample.owner "unwhitelist") Sample.owner (initial_world 1)
           eq_refl eq_refl).
Defined.

(** alice banned bob: alice is banned too, bob stays banned. *)
Lemma ban_handler_frame_witness :
  newest Sample.guild ban = Some {| entry_action := ban; entry_user := Sample.alice |}
  /\ (user_id Sample.alice ∉ whitelisted Sample.fresh)
  /\ on_member_ban obliging 7 Sample.guild Sample.bob Sample.fresh
       = (Ok tt, extend Sample.fresh
                   [(GuildBan 100 2 (lit "Unauthorized ban attempt"), None);
                    (ChannelSendEmbed 7 (ban_log Sample.alice Sample.bob), None)])
  /\ banned_after
       ([(GuildBan 100 2 (lit "Unauthorized ban attempt"), None)]
        ++ logged 7 Sample.guild (ban_log Sample.alice Sample.bob)) {[ 3 ]}
     = {[ 2 ]} ∪ {[ 3 ]}.
Proof.
  assert (Hn : newest Sample.guild ban
               = Some {| entry_action := ban; entry_user := Sample.alice |})
    by reflexivity.
  assert (Hw : user_id Sample.alice ∉ whitelisted Sample.fresh) by by_computation.
  assert (Hrun : on_member_ban obliging 7 Sample.guild Sample.bob Sample.fresh
       = (Ok tt, extend Sample.fresh
                   [(GuildBan 100 2 (lit "Unauthorized ban attempt"), None);
                    (ChannelSendEmbed 7 (ban_log Sample.alice Sample.bob), None)]))
    by reflexivity.
  split; [exact Hn|]. split; [exact Hw|]. split; [exact Hrun|].
  destruct (ban_handler_frame obliging 7 Sample.guild Sample.bob _ Sample.fresh Hn Hw)
    as [_ H].
  destruct (H _ Hrun) as [_ H2]. exact (H2 {[ 3 ]}).
Defined.

(** The owner adds alice, then removes alice; removing alice who was never
    added changes nothing and returns. *)
Lemma whitelist_then_unwhitelist_witness :
  Sample.only_owner (ctx_author (Sample.ctx Sample.owner "whitelist")) = true
  /\ Sample.only_owner (ctx_author (Sample.ctx Sample.owner "unwhitelist")) = true
  /\ user_id Sample.alice ∈
       whitelisted (snd (whitelist obliging Sample.only_owner 7
                           (Sample.ctx Sample.owner "whitelist") Sample.alice Sample.fresh))
  /\ (user_id Sample.alice ∉
       whitelisted
         (snd (unwhitelist obliging Sample.only_owner 7
                 (Sample.ctx Sample.owner "unwhitelist") Sample.alice
                 (snd (whitelist obliging Sample.only_owner 7
                         (Sample.ctx Sample.owner "whitelist") Sample.alice Sample.fresh)))))
  /\ (user_id Sample.alice ∉ whitelisted Sample.fresh)
  /\ whitelisted (snd (unwhitelist obliging Sample.only_owner 7
                         (Sample.ctx Sample.owner "unwhitelist") Sample.alice Sample.fresh))
     = whitelisted Sample.fresh
  /\ fst (unwhitelist obliging Sample.only_owner 7
            (Sample.ctx Sample.owner "unwhitelist") Sample.alice Sample.fresh) = Ok tt.
Proof.
  assert (Ho : Sample.only_owner (ctx_author (Sample.ctx Sample.owner "whitelist")) = true)
    by reflexivity.
  assert (Ho' : Sample.only_owner (ctx_author (Sample.ctx Sample.owner "unwhitelist")) = true)
    by reflexivity.
  assert (Hw : user_id Sample.alice ∉ whitelisted Sample.fresh) by by_computation.
  destruct (whitelist_then_unwhitelist obliging Sample.only_owner 7
              (Sample.ctx Sample.owner "whitelist") (Sample.ctx Sample.owner "unwhitelist")
              Sample.alice Sample.fresh Ho Ho') as (H1 & H2 & H3).
  destruct (H3 Hw) as [H4 H5].
  split; [exact Ho|]. split; [exact Ho'|]. split; [exact H1|]. split; [exact H2|].
  split; [exact Hw|]. split; [exact H4|]. exact (H5 (fun _ _ => eq_refl)).
Defined.

(** A feed's message is ignored; alice's greeting is handed on. *)
Lemma on_message_forwarding_witness :
  user_bot (message_author Sample.syndicated) = true
  /\ on_message obliging ascii_lower 7 Sample.syndicated Sample.fresh = (Ok tt, Sample.fresh)
  /\ user_bot (message_author Sample.greeting) = false
  /\ (forall j c, obliging j c = None)
  /\ exists es, on_message obliging ascii_lower 7 Sample.greeting Sample.fresh
       = (Ok tt, extend Sample.fresh
                   (es ++ [(ProcessCommands (message_id Sample.greeting), None)])).
Proof.
  destruct (on_message_forwarding obliging ascii_lower 7 Sample.syndicated Sample.fresh)
    as [H1 _].
  destruct (on_message_forwarding obliging ascii_lower 7 Sample.greeting Sample.fresh)
    as (_ & _ & H2).
  split; [reflexivity|]. split; [exact (H1 eq_refl)|]. split; [reflexivity|].
  split; [reflexivity|]. exact (H2 eq_refl (fun _ _ => eq_refl)).
Defined.

(** Two channels in two guilds, two platforms, two log channels: the same
    newest entry, the same ban. *)
Lemma ban_follows_audit_log_witness :
  newest (event_guild (ChannelCreated Sample.raid)) (event_action (ChannelCreated Sample.raid))
    = newest (event_guild (ChannelCreated Sample.lobby))
             (event_action (ChannelCreated Sample.lobby))
  /\ whitelisted Sample.fresh = whitelisted (extend Sample.fresh [(MessageDelete 1, None)])
  /\ handle obliging 7 (ChannelCreated Sample.raid) Sample.fresh
       = (Ok tt, extend Sample.fresh
                   (revert_and_ban 7 (ChannelCreated Sample.raid) Sample.alice))
  /\ handle dm_closed 5 (ChannelCreated Sample.lobby)
       (extend Sample.fresh [(MessageDelete 1, None)])
       = (Ok tt, extend (extend Sample.fresh [(MessageDelete 1, None)])
                   (revert_and_ban 5 (ChannelCreated Sample.lobby) Sample.alice))
  /\ banned_principals (revert_and_ban 7 (ChannelCreated Sample.raid) Sample.alice) = [2]
  /\ banned_principals (revert_and_ban 5 (ChannelCreated Sample.lobby) Sample.alice)
     = banned_principals (revert_and_ban 7 (ChannelCreated Sample.raid) Sample.alice).
Proof.
  assert (Hn : newest (event_guild (ChannelCreated Sample.raid))
                      (event_action (ChannelCreated Sample.raid))
               = newest (event_guild (ChannelCreated Sample.lobby))
                        (event_action (ChannelCreated Sample.lobby)))
    by reflexivity.
  assert (Hw : whitelisted Sample.fresh
               = whitelisted (extend Sample.fresh [(MessageDelete 1, None)]))
    by reflexivity.
  assert (H1 : handle obliging 7 (ChannelCreated Sample.raid) Sample.fresh
       = (Ok tt, extend Sample.fresh
                   (revert_and_ban 7 (ChannelCreated Sample.raid) Sample.alice)))
    by reflexivity.
  assert (H2 : handle dm_closed 5 (ChannelCreated Sample.lobby)
       (extend Sample.fresh [(MessageDelete 1, None)])
       = (Ok tt, extend (extend Sample.fresh [(MessageDelete 1, None)])
                   (revert_and_ban 5 (ChannelCreated Sample.lobby) Sample.alice)))
    by reflexivity.
  split; [exact Hn|]. split; [exact Hw|]. split; [exact H1|]. split; [exact H2|].
  exact (ban_follows_audit_log obliging dm_closed 7 5 _ _ _ _ _ _ Hn Hw H1 H2).
Defined.

(** ** Where the program departs from what was written about it *)

(** C5. The bot may not delete messages, and alice posts a link: the delete
    raises Forbidden out of [on_message]; the warning, the log entry and the
    hand-over to command processing are never issued.  And where the platform
    refuses to delete a message twice, a message with a link and a mass
    mention gets the link rule in full, then the mention rule stops at its
    delete: no timeout, no warning, no log, no command processing. *)
Lemma failed_delete_stops_the_handler :
  on_message no_manage_messages ascii_lower 7 Sample.advert Sample.fresh
    = (Raise Forbidden, extend Sample.fresh [(MessageDelete 55, Some Forbidden)])
  /\ on_message strict ascii_lower 7 Sample.both Sample.fresh
    = (Raise NotFound,
       extend Sample.fresh
         (delete_and_warn 7 Sample.both None ++ [(MessageDelete 57, Some NotFound)])).
Proof. split; reflexivity. Qed.

(** C6. The owner, who passes the owner check, runs [unwhitelist] on the
    owner: the owner was in the allow-list and is not any more. *)
Lemma unwhitelist_removes_the_owner :
  1 ∈ whitelisted (initial_world 1)
  /\ 1 ∉ whitelisted
           (snd (unwhitelist obliging Sample.only_owner 7
                   (Sample.ctx Sample.owner "unwhitelist") Sample.owner (initial_world 1))).
Proof. split; by_computation. Qed.

(** C9. A message from an automated account that is not the program's own
    is ignored all the same: no rule is applied to the link in it and it is
    not handed to command processing. *)
Lemma other_bots_are_ignored :
  user_id (message_author Sample.syndicated) <> user_id Sample.self
  /\ contains_link (message_content Sample.syndicated)
  /\ on_message obliging ascii_lower 7 Sample.syndicated Sample.fresh
     = (Ok tt, Sample.fresh)
  /\ on_message no_manage_messages ascii_lower 7 Sample.advert Sample.fresh
     = (Raise Forbidden, extend Sample.fresh [(MessageDelete 55, Some Forbidden)]).
Proof.
  split; [discriminate|]. split; [apply contains_link_search; reflexivity|].
  split; reflexivity.
Qed.

(** ** More of the theorems at work on the samples *)

(** alice's message with a link and a mass mention: every call is about
    message 57 or user 2, and the embeds go to channel 7. *)
Lemma on_message_frame_witness :
  on_message obliging ascii_lower 7 Sample.both Sample.fresh
    = (Ok tt, extend Sample.fresh
                (delete_and_warn 7 Sample.both None
                 ++ timeout_and_warn 7 Sample.both None
                 ++ [(ProcessCommands 57, None)]))
  /\ exists es,
       extend Sample.fresh
         (delete_and_warn 7 Sample.both None ++ timeout_and_warn 7 Sample.both None
          ++ [(ProcessCommands 57, None)]) = extend Sample.fresh es
       /\ Forall (fun e =>
            match fst e with
            | ProcessCommands m => m = message_id Sample.both
            | MessageDelete m =>
                m = message_id Sample.both
                /\ user_id (message_author Sample.both) ∉ whitelisted Sample.fresh
            | UserSend u _ =>
                u = user_id (message_author Sample.both)
                /\ user_id (message_author Sample.both) ∉ whitelisted Sample.fresh
            | MemberTimeout u seconds _ =>
                u = user_id (message_author Sample.both) /\ seconds = 600
                /\ user_id (message_author Sample.both) ∉ whitelisted Sample.fresh
            | ChannelSendEmbed c _ =>
                c = 7
                /\ user_id (message_author Sample.both) ∉ whitelisted Sample.fresh
            | _ => False
            end) es.
Proof.
  assert (Hrun : on_message obliging ascii_lower 7 Sample.both Sample.fresh
                 = (Ok tt, extend Sample.fresh
                             (delete_and_warn 7 Sample.both None
                              ++ timeout_and_warn 7 Sample.both None
                              ++ [(ProcessCommands 57, None)])))
    by reflexivity.
  split; [exact Hrun|].
  exact (on_message_frame obliging ascii_lower 7 Sample.both Sample.fresh _ _ Hrun).
Defined.

(** alice's channel: the channel deleted is that one, the user banned is
    alice. *)
Lemma security_frame_witness :
  handle obliging 7 (ChannelCreated Sample.raid) Sample.fresh
    = (Ok tt, extend Sample.fresh
                (revert_and_ban 7 (ChannelCreated Sample.raid) Sample.alice))
  /\ exists es,
       extend Sample.fresh (revert_and_ban 7 (ChannelCreated Sample.raid) Sample.alice)
         = extend Sample.fresh es
       /\ (es = [] \/
           exists entry,
             newest (event_guild (ChannelCreated Sample.raid))
                    (event_action (ChannelCreated Sample.raid)) = Some entry
             /\ (user_id (entry_user entry) ∉ whitelisted Sample.fresh)
             /\ Forall (fun e =>
                  match fst e, ChannelCreated Sample.raid with
                  | ChannelDelete c, ChannelCreated channel => c = channel_id channel
                  | RoleDelete ro, RoleCreated role => ro = role_id role
                  | MemberBan u _, (ChannelCreated _ | RoleCreated _) =>
                      u = user_id (entry_user entry)
                  | GuildBan g u _, MemberBanned guild _ =>
                      g = guild_id guild /\ u = user_id (entry_user entry)
                  | ChannelSendEmbed c _, _ => c = 7
                  | _, _ => False
                  end) es).
Proof.
  assert (Hrun : handle obliging 7 (ChannelCreated Sample.raid) Sample.fresh
                 = (Ok tt, extend Sample.fresh
                             (revert_and_ban 7 (ChannelCreated Sample.raid) Sample.alice)))
    by reflexivity.
  split; [exact Hrun|].
  exact (security_frame obliging 7 (ChannelCreated Sample.raid) Sample.fresh _ _ Hrun).
Defined.

(** The owner whitelists alice: a reply in channel 8, an embed in channel 7. *)
Lemma commands_frame_witness :
  whitelist obliging Sample.only_owner 7 (Sample.ctx Sample.owner "whitelist")
    Sample.alice Sample.fresh
  = ((whitelist obliging Sample.only_owner 7 (Sample.ctx Sample.owner "whitelist")
        Sample.alice Sample.fresh).1,
     (whitelist obliging Sample.only_owner 7 (Sample.ctx Sample.owner "whitelist")
        Sample.alice Sample.fresh).2)
  /\ exists es,
       journal (whitelist obliging Sample.only_owner 7
                  (Sample.ctx Sample.owner "whitelist") Sample.alice Sample.fresh).2
         = journal Sample.fresh ++ es
       /\ Forall (fun e =>
            match fst e with
            | ChannelSend c _ => c = ctx_channel (Sample.ctx Sample.owner "whitelist")
            | ChannelSendEmbed c _ => c = 7
            | _ => False
            end) es.
Proof.
  assert (Hrun : whitelist obliging Sample.only_owner 7
                   (Sample.ctx Sample.owner "whitelist") Sample.alice Sample.fresh
                 = ((whitelist obliging Sample.only_owner 7
                       (Sample.ctx Sample.owner "whitelist") Sample.alice Sample.fresh).1,
                    (whitelist obliging Sample.only_owner 7
                       (Sample.ctx Sample.owner "whitelist") Sample.alice Sample.fresh).2))
    by reflexivity.
  split; [exact Hrun|].
  exact (commands_frame obliging Sample.only_owner 7
           (Sample.ctx Sample.owner "whitelist") Sample.alice CommandNotFound
           Sample.fresh _ _ (or_introl Hrun)).
Defined.

(** The owner may post links and mass mentions; alice's greeting has
    neither. *)
Lemma on_message_quiet_witness :
  user_bot (message_author Sample.vip_advert) = false
  /\ user_id (message_author Sample.vip_advert) ∈ whitelisted Sample.fresh
  /\ on_message obliging ascii_lower 7 Sample.vip_advert Sample.fresh
     = call obliging (ProcessCommands (message_id Sample.vip_advert)) Sample.fresh.
Proof.
  assert (Hb : user_bot (message_author Sample.vip_advert) = false) by reflexivity.
  assert (Hw : user_id (message_author Sample.vip_advert) ∈ whitelisted Sample.fresh)
    by by_computation.
  split; [exact Hb|]. split; [exact Hw|].
  exact (on_message_quiet obliging ascii_lower 7 Sample.vip_advert Sample.fresh
           Hb (or_introl Hw)).
Defined.

Lemma strict_refuses (j : list (Call * option Exn)) (m : Z) :
  (MessageDelete m, None) ∈ j -> strict j (MessageDelete m) <> None.
Proof.
  intros Hin. unfold strict.
  assert (H : existsb (fun e => match e with
                                | (MessageDelete m', None) => m =? m'
                                | _ => false
                                end) j = true).
  { apply existsb_exists. exists (MessageDelete m, None).
    split; [by apply list_elem_of_In | apply Z.eqb_refl]. }
  by rewrite H.
Qed.

(** On the platform that deletes a message once, alice's message with a link
    and a mass mention ends in an exception, with no timeout. *)
Lemma second_delete_refused_witness :
  (forall j m, (MessageDelete m, None) ∈ j -> strict j (MessageDelete m) <> None)
  /\ user_bot (message_author Sample.both) = false
  /\ contains_link (message_content Sample.both)
  /\ (contains (lit "@everyone") (ascii_lower (message_content Sample.both))
      \/ contains (lit "@here") (ascii_lower (message_content Sample.both)))
  /\ (user_id (message_author Sample.both) ∉ whitelisted Sample.fresh)
  /\ exists e es,
       on_message strict ascii_lower 7 Sample.both Sample.fresh
         = (Raise e, extend Sample.fresh es)
       /\ Forall (fun x =>
            match fst x with
            | MemberTimeout _ _ _ | ProcessCommands _ => False
            | _ => True
            end) es.
Proof.
  assert (Hb : user_bot (message_author Sample.both) = false) by reflexivity.
  assert (Hl : contains_link (message_content Sample.both))
    by (apply contains_link_search; reflexivity).
  assert (Hm : contains (lit "@everyone") (ascii_lower (message_content Sample.both))
               \/ contains (lit "@here") (ascii_lower (message_content Sample.both)))
    by (right; apply str_in_spec; reflexivity).
  assert (Hw : user_id (message_author Sample.both) ∉ whitelisted Sample.fresh)
    by by_computation.
  split; [exact strict_refuses|]. split; [exact Hb|]. split; [exact Hl|].
  split; [exact Hm|]. split; [exact Hw|].
  exact (second_delete_refused strict ascii_lower 7 Sample.both Sample.fresh
           strict_refuses Hb Hl Hm Hw).
Defined.

(** The same words from the same author in the same channel, posted twice. *)
Lemma link_log_quote_witness :
  user_mention (message_author Sample.advert)
    = user_mention (message_author (Sample.say 61 Sample.alice "check this out www.example.com"))
  /\ channel_mention (message_channel Sample.advert)
     = channel_mention
         (message_channel (Sample.say 61 Sample.alice "check this out www.example.com"))
  /\ take 100 (message_content Sample.advert)
     = take 100 (message_content (Sample.say 61 Sample.alice "check this out www.example.com"))
  /\ link_log Sample.advert
     = link_log (Sample.say 61 Sample.alice "check this out www.example.com").
Proof.
  split; [reflexivity|]. split; [reflexivity|]. split; [reflexivity|].
  destruct (link_log_quote Sample.advert
              (Sample.say 61 Sample.alice "check this out www.example.com")) as [_ H].
  exact (H eq_refl eq_refl eq_refl).
Defined.

(** Whitelisting alice does not whitelist bob, nor take the owner out. *)
Lemma allow_list_frame_witness :
  3 <> user_id Sample.alice
  /\ (3 ∈ whitelisted
            (snd (whitelist obliging Sample.only_owner 7
                    (Sample.ctx Sample.owner "whitelist") Sample.alice Sample.fresh))
      <-> 3 ∈ whitelisted Sample.fresh)
  /\ (3 ∈ whitelisted
            (snd (unwhitelist obliging Sample.only_owner 7
                    (Sample.ctx Sample.owner "whitelist") Sample.alice Sample.fresh))
      <-> 3 ∈ whitelisted Sample.fresh).
Proof.
  assert (Hq : 3 <> user_id Sample.alice) by discriminate.
  split; [exact Hq|].
  exact (allow_list_frame obliging Sample.only_owner 7
           (Sample.ctx Sample.owner "whitelist") Sample.alice 3 Sample.fresh Hq).
Defined.

(** The owner adds and removes the owner: the round trip does not give the
    allow-list back. *)
Lemma allow_list_round_trips_witness :
  Sample.only_owner (ctx_author (Sample.ctx Sample.owner "whitelist")) = true
  /\ Sample.only_owner (ctx_author (Sample.ctx Sample.owner "unwhitelist")) = true
  /\ whitelisted
       (snd (unwhitelist obliging Sample.only_owner 7
               (Sample.ctx Sample.owner "unwhitelist") Sample.owner
               (snd (whitelist obliging Sample.only_owner 7
                       (Sample.ctx Sample.owner "whitelist") Sample.owner Sample.fresh))))
     = whitelisted Sample.fresh ∖ {[ user_id Sample.owner ]}.
Proof.
  split; [reflexivity|]. split; [reflexivity|].
  destruct (allow_list_round_trips obliging Sample.only_owner 7
              (Sample.ctx Sample.owner "whitelist")
              (Sample.ctx Sample.owner "unwhitelist")
              Sample.owner Sample.fresh eq_refl eq_refl) as [H _].
  exact H.
Defined.

(** The reply to the owner is refused: alice is whitelisted all the same,
    and nothing is logged. *)
Lemma refused_acknowledgement_witness :
  Sample.only_owner (ctx_author (Sample.ctx Sample.owner "whitelist")) = true
  /\ (fun _ c => match c with ChannelSend _ _ => Some Forbidden | _ => None end)
       (journal Sample.fresh)
       (ChannelSend (ctx_channel (Sample.ctx Sample.owner "whitelist"))
          ([9989%N] ++ lit " " ++ user_mention Sample.alice
           ++ lit " has been whitelisted."))
     = Some Forbidden
  /\ whitelist (fun _ c => match c with ChannelSend _ _ => Some Forbidden | _ => None end)
       Sample.only_owner 7 (Sample.ctx Sample.owner "whitelist") Sample.alice Sample.fresh
     = (Raise Forbidden,
        {| whitelisted := {[ user_id Sample.alice ]} ∪ whitelisted Sample.fresh;
           journal := journal Sample.fresh ++
             [(ChannelSend (ctx_channel (Sample.ctx Sample.owner "whitelist"))
                 ([9989%N] ++ lit " " ++ user_mention Sample.alice
                  ++ lit " has been whitelisted."), Some Forbidden)] |}).
Proof.
  split; [reflexivity|]. split; [reflexivity|].
  destruct (refused_acknowledgement
              (fun _ c => match c with ChannelSend _ _ => Some Forbidden | _ => None end)
              Sample.only_owner 7 (Sample.ctx Sample.owner "whitelist")
              Sample.alice Sample.fresh Forbidden eq_refl) as [H _].
  exact (H eq_refl).
Defined.

(** alice tries to whitelist herself. *)
Lemma not_owner_reply_witness :
  Sample.only_owner (ctx_author (Sample.ctx Sample.alice "whitelist")) = false
  /\ whitelist obliging Sample.only_owner 7 (Sample.ctx Sample.alice "whitelist")
       Sample.alice Sample.fresh
     = (Raise (CommandErr NotOwner), Sample.fresh)
  /\ on_command_error obliging 7 (Sample.ctx Sample.alice "whitelist") NotOwner Sample.fresh
     = (Ok tt, extend Sample.fresh
                 [(ChannelSend 8 ([128683%N] ++ lit " This command is for bot owners only!"),
                   None)])
  /\ extend Sample.fresh
       [(ChannelSend 8 ([128683%N] ++ lit " This command is for bot owners only!"), None)]
     = extend Sample.fresh
         [(ChannelSend (ctx_channel (Sample.ctx Sample.alice "whitelist"))
             ([128683%N] ++ lit " This command is for bot owners only!"),
           obliging (journal Sample.fresh)
             (ChannelSend (ctx_channel (Sample.ctx Sample.alice "whitelist"))
                ([128683%N] ++ lit " This command is for bot owners only!")))].
Proof.
  assert (Ho : Sample.only_owner (ctx_author (Sample.ctx Sample.alice "whitelist")) = false)
    by reflexivity.
  assert (Hrun : on_command_error obliging 7 (Sample.ctx Sample.alice "whitelist")
                   NotOwner Sample.fresh
                 = (Ok tt, extend Sample.fresh
                      [(ChannelSend 8
                          ([128683%N] ++ lit " This command is for bot owners only!"),
                        None)]))
    by reflexivity.
  destruct (not_owner_reply obliging Sample.only_owner 7
              (Sample.ctx Sample.alice "whitelist") Sample.alice Sample.fresh Ho)
    as (H1 & _ & H3).
  split; [exact Ho|]. split; [exact H1|]. split; [exact Hrun|].
  destruct (H3 _ _ Hrun) as [Hw _]. exact Hw.
Defined.

(** A token that is no number is kept as it stands. *)
Lemma get_env_var_not_set_witness :
  Sample.environ !! "DISCORD_TOKEN"%string = Some (lit "s3cret.token")
  /\ lit "s3cret.token" <> []
  /\ Startup.get_env_var Sample.environ Sample.digits "DISCORD_TOKEN" false
     = inr (Startup.StrValue (lit "s3cret.token")).
Proof.
  assert (H1 : Sample.environ !! "DISCORD_TOKEN"%string = Some (lit "s3cret.token"))
    by reflexivity.
  assert (H2 : lit "s3cret.token" <> []) by discriminate.
  split; [exact H1|]. split; [exact H2|].
  destruct (get_env_var_not_set Sample.environ Sample.digits "DISCORD_TOKEN" false)
    as [_ H].
  exact (H _ H1 H2).
Defined.

(** The owner's identifier is there but empty: start-up stops on it. *)
Lemma configuration_error_witness :
  Startup.configuration Sample.no_owner Sample.digits
    = inl (Startup.NotSet "OWNER_ID")
  /\ ("OWNER_ID" = "DISCORD_TOKEN" \/ "OWNER_ID" = "OWNER_ID"
      \/ "OWNER_ID" = "LOG_CHANNEL_ID")%string
  /\ (Sample.no_owner !! "OWNER_ID"%string = None
      \/ Sample.no_owner !! "OWNER_ID"%string = Some []).
Proof.
  assert (Hrun : Startup.configuration Sample.no_owner Sample.digits
                 = inl (Startup.NotSet "OWNER_ID")) by reflexivity.
  split; [exact Hrun|].
  exact (configuration_error Sample.no_owner Sample.digits _ Hrun).
Defined.

(** A complete environment gives the token, the owner and the log channel. *)
Lemma configuration_complete_witness :
  Startup.configuration Sample.environ Sample.digits
  = inr {| Startup.TOKEN := Startup.StrValue (lit "s3cret.token");
           Startup.OWNER_ID := Startup.IntValue 1;
           Startup.LOG_CHANNEL_ID := Startup.IntValue 7 |}.
Proof.
  apply (proj2 (configuration_complete Sample.environ Sample.digits _)).
  exists (lit "s3cret.token"), (lit "1"), (lit "7"), 1, 7.
  repeat split; discriminate.
Defined.

(** Once whitelisted by the owner, alice may post her link and create her
    channel. *)
Lemma whitelisting_exempts_witness :
  Sample.only_owner (ctx_author (Sample.ctx Sample.owner "whitelist")) = true
  /\ user_id (message_author Sample.both) = user_id Sample.alice
  /\ user_bot (message_author Sample.both) = false
  /\ on_message obliging ascii_lower 7 Sample.both
       (snd (whitelist obliging Sample.only_owner 7
               (Sample.ctx Sample.owner "whitelist") Sample.alice Sample.fresh))
     = call obliging (ProcessCommands (message_id Sample.both))
         (snd (whitelist obliging Sample.only_owner 7
                 (Sample.ctx Sample.owner "whitelist") Sample.alice Sample.fresh)).
Proof.
  destruct (whitelisting_exempts obliging ascii_lower Sample.only_owner 7
              (Sample.ctx Sample.owner "whitelist") Sample.alice Sample.fresh eq_refl)
    as [H _].
  split; [reflexivity|]. split; [reflexivity|]. split; [reflexivity|].
  exact (H Sample.both eq_refl eq_refl).
Defined.

(** Once the owner unwhitelisted the owner, the owner's advert is deleted. *)
Lemma unwhitelisting_exposes_witness :
  Sample.only_owner (ctx_author (Sample.ctx Sample.owner "unwhitelist")) = true
  /\ user_id (message_author Sample.vip_advert) = user_id Sample.owner
  /\ contains_link (message_content Sample.vip_advert)
  /\ exists es,
       snd (link_protection obliging 7 Sample.vip_advert
              (snd (unwhitelist obliging Sample.only_owner 7
                      (Sample.ctx Sample.owner "unwhitelist") Sample.owner Sample.fresh)))
       = extend (snd (unwhitelist obliging Sample.only_owner 7
                        (Sample.ctx Sample.owner "unwhitelist") Sample.owner Sample.fresh))
           ((MessageDelete (message_id Sample.vip_advert),
             obliging
               (journal (snd (unwhitelist obliging Sample.only_owner 7
                                (Sample.ctx Sample.owner "unwhitelist")
                                Sample.owner Sample.fresh)))
               (MessageDelete (message_id Sample.vip_advert))) :: es).
Proof.
  assert (Hl : contains_link (message_content Sample.vip_advert))
    by (apply contains_link_search; reflexivity).
  destruct (unwhitelisting_exposes obliging Sample.only_owner 7
              (Sample.ctx Sample.owner "unwhitelist") Sample.owner Sample.fresh eq_refl)
    as [H _].
  split; [reflexivity|]. split; [reflexivity|]. split; [exact Hl|].
  exact (H Sample.vip_advert _ _ eq_refl Hl (surjective_pairing _)).
Defined.
